(** * lead-processor: the reconciliation engine and its remote client

    A shallow embedding of the Go packages [models], [api], [processor]
    and of the batch loop of [cmd], followed by the theorems that relate
    them to the written specification.

    Conventions of the embedding:
    - a Go [string] is a sequence of bytes, here a [string] of [ascii];
    - a pointer that may be [nil] is an [option]; the leads handed to the
      engine come from [NewLead] and are never [nil], so they are values;
    - a Go result pair [(v, err)] is kept as a pair of options, since the
      callers test [err != nil] and only then look at [v];
    - [int] and [time.Duration] are 64-bit: [Z] with the wrap written out;
    - the network, the clock and [time.Sleep] live in an explicit [World]
      that is threaded through the client;
    - log lines and progress output are left out: they feed no decision. *)

From Stdlib Require Import String Ascii List ZArith Lia Bool DecimalString.
Import ListNotations.
Local Open Scope string_scope.
Local Open Scope Z_scope.

Set Implicit Arguments.

(* ================================================================== *)
(** * Go runtime pieces the packages rely on *)
(* ================================================================== *)

Module Go.

(** ** Machine integers *)

Definition wrap64 (z : Z) : Z :=
  (z + 2 ^ 63) mod 2 ^ 64 - 2 ^ 63.

Definition maxInt : Z := 2 ^ 63 - 1.

(** [x++] on an [int]. *)
Definition incr (x : Z) : Z := wrap64 (x + 1).

(** [fmt.Sprintf("%d", z)]. *)
Definition itoa (z : Z) : string := NilZero.string_of_int (Z.to_int z).

(** ** Errors

    [error] is an interface; three implementations occur in the program:
    errors made by [fmt.Errorf] without [%w] (and the opaque errors of
    [encoding/json]), the [*url.Error] that [http.Client.Get] returns, which
    implements [net.Error] and so answers [Timeout()], and the wrapping
    errors made by [fmt.Errorf] with [%w], which store the whole formatted
    text next to the wrapped cause. *)

Inductive error : Type :=
| errorString (msg : string)
| urlError (msg : string) (timeout : bool)
| wrapError (msg : string) (cause : error).

(** [err.Error()]. *)
Definition Error (e : error) : string :=
  match e with
  | errorString msg => msg
  | urlError msg _ => msg
  | wrapError msg _ => msg
  end.

(** [fmt.Errorf(prefix + "%w", cause)]. *)
Definition Errorf_w (prefix : string) (cause : error) : error :=
  wrapError (prefix ++ Error cause) cause.

(** ** package strings *)

(** [strings.Join(elems, sep)]. *)
Definition Join (elems : list string) (sep : string) : string :=
  String.concat sep elems.

(** [strings.Contains(s, substr)]. *)
Fixpoint Contains (s substr : string) : bool :=
  prefix substr s ||
  match s with
  | EmptyString => false
  | String _ rest => Contains rest substr
  end.

Definition byteIs (n : nat) (c : ascii) : bool := Nat.eqb (nat_of_ascii c) n.

Definition byteIn (lo hi : nat) (c : ascii) : bool :=
  Nat.leb lo (nat_of_ascii c) && Nat.leb (nat_of_ascii c) hi.

Definition isLower (c : ascii) : bool := byteIn 97 122 c.
Definition isUpper (c : ascii) : bool := byteIn 65 90 c.
Definition isDigit (c : ascii) : bool := byteIn 48 57 c.
Definition isLetter (c : ascii) : bool := isLower c || isUpper c.

(** [unicode.IsSpace] on the UTF-8 encoding of a rune.  The white space
    runes are the six ASCII ones, U+0085 and U+00A0 (two bytes), and
    U+1680, U+2000..U+200A, U+2028, U+2029, U+202F, U+205F and U+3000
    (three bytes).  UTF-8 is prefix-free and the decoder is strict, so a
    string starts (ends) with a white space rune exactly when it starts
    (ends) with one of these byte sequences. *)
Definition space1 (c : ascii) : bool :=
  byteIs 9 c || byteIs 10 c || byteIs 11 c || byteIs 12 c || byteIs 13 c
  || byteIs 32 c.

Definition space2 (c1 c2 : ascii) : bool :=
  byteIs 194 c1 && (byteIs 133 c2 || byteIs 160 c2).

Definition space3 (c1 c2 c3 : ascii) : bool :=
  (byteIs 225 c1 && byteIs 154 c2 && byteIs 128 c3)
  || (byteIs 226 c1 && byteIs 128 c2 &&
      (byteIn 128 138 c3 || byteIs 168 c3 || byteIs 169 c3 || byteIs 175 c3))
  || (byteIs 226 c1 && byteIs 129 c2 && byteIs 159 c3)
  || (byteIs 227 c1 && byteIs 128 c2 && byteIs 128 c3).

(** Drops white space runes from the front of a byte sequence.  With
    [fwd = false] the sequence is read back to front, so the bytes of a
    rune arrive in reverse order. *)
Fixpoint dropSpace (fwd : bool) (bs : list ascii) : list ascii :=
  match bs with
  | [] => []
  | c1 :: r1 =>
    if space1 c1 then dropSpace fwd r1 else
    match r1 with
    | [] => bs
    | c2 :: r2 =>
      if (if fwd then space2 c1 c2 else space2 c2 c1) then dropSpace fwd r2 else
      match r2 with
      | [] => bs
      | c3 :: r3 =>
        if (if fwd then space3 c1 c2 c3 else space3 c3 c2 c1)
        then dropSpace fwd r3 else bs
      end
    end
  end.

(** [strings.TrimSpace(s)]: [s] without leading and trailing white space,
    as defined by Unicode. *)
Definition TrimSpace (s : string) : string :=
  string_of_list_ascii
    (rev (dropSpace false (rev (dropSpace true (list_ascii_of_string s))))).

(** ** package regexp

    The fragment of RE2 syntax that the program uses: character classes,
    concatenation, [+], [*] and the counted repetition [{2,}], matched
    against the whole text (the pattern is anchored by [^] and [$], and
    without the [m] flag [$] is the end of the text).  A class of ASCII
    characters matches no byte of a multi-byte rune. *)

Inductive regexp : Type :=
| Void
| Eps
| Class (p : ascii -> bool)
| Cat (r1 r2 : regexp)
| Alt (r1 r2 : regexp)
| Star (r : regexp).

Definition Plus (r : regexp) : regexp := Cat r (Star r).
Definition AtLeast2 (r : regexp) : regexp := Cat r (Cat r (Star r)).
Definition Lit (c : ascii) : regexp := Class (Ascii.eqb c).

Fixpoint nullable (r : regexp) : bool :=
  match r with
  | Void => false
  | Eps => true
  | Class _ => false
  | Cat r1 r2 => nullable r1 && nullable r2
  | Alt r1 r2 => nullable r1 || nullable r2
  | Star _ => true
  end.

(** Brzozowski derivative. *)
Fixpoint deriv (c : ascii) (r : regexp) : regexp :=
  match r with
  | Void => Void
  | Eps => Void
  | Class p => if p c then Eps else Void
  | Cat r1 r2 =>
    if nullable r1 then Alt (Cat (deriv c r1) r2) (deriv c r2)
    else Cat (deriv c r1) r2
  | Alt r1 r2 => Alt (deriv c r1) (deriv c r2)
  | Star r1 => Cat (deriv c r1) (Star r1)
  end.

(** [re.MatchString(s)] for a pattern anchored at both ends. *)
Fixpoint MatchString (r : regexp) (s : string) : bool :=
  match s with
  | EmptyString => nullable r
  | String c rest => MatchString (deriv c r) rest
  end.

(** ** package net/url *)

Definition upperhex (n : nat) : ascii :=
  nth n (list_ascii_of_string "0123456789ABCDEF") "0"%char.

(** [url.QueryEscape(s)]: letters, digits and [-_.~] stay, a space becomes
    [+], every other byte becomes [%XX]. *)
Fixpoint QueryEscape (s : string) : string :=
  match s with
  | EmptyString => EmptyString
  | String c rest =>
    let n := nat_of_ascii c in
    (if isLetter c || isDigit c || byteIs 45 c || byteIs 95 c || byteIs 46 c
        || byteIs 126 c
     then String c EmptyString
     else if byteIs 32 c then "+"
     else String "%" (String (upperhex (n / 16)) (String (upperhex (n mod 16)) EmptyString)))
    ++ QueryEscape rest
  end.

End Go.

Import Go.

(* ================================================================== *)
(** * package models *)
(* ================================================================== *)

Module models.

(** [time.Time], as an instant on the clock of the [World]. *)
Definition Time := Z.

Record Lead : Type := mkLead {
  ID : string;
  Name : string;
  Email : string;
  Company : string;
  Source : string;
  CreatedAt : Time;
  UpdatedAt : option Time
}.

Definition GetValidSources : list string :=
  ["LinkedIn"; "Website"; "Conference"; "Referral"; "Webinar"; "Twitter"].

(** [[a-zA-Z0-9._%+-]] *)
Definition localChar (c : ascii) : bool :=
  isLetter c || isDigit c || byteIs 46 c || byteIs 95 c || byteIs 37 c
  || byteIs 43 c || byteIs 45 c.

(** [[a-zA-Z0-9.-]] *)
Definition domainChar (c : ascii) : bool :=
  isLetter c || isDigit c || byteIs 46 c || byteIs 45 c.

(** [^[a-zA-Z0-9._%+-]+@[a-zA-Z0-9.-]+\.[a-zA-Z]{2,}$] *)
Definition emailRegex : regexp :=
  Cat (Plus (Class localChar))
   (Cat (Lit "@")
     (Cat (Plus (Class domainChar))
       (Cat (Lit ".") (AtLeast2 (Class isLetter))))).

Definition isValidEmail (email : string) : bool :=
  if (TrimSpace email =? "")%string then false
  else MatchString emailRegex email.

Fixpoint isValidSource_loop (source : string) (validSources : list string) : bool :=
  match validSources with
  | [] => false
  | validSource :: rest =>
    if (source =? validSource)%string then true else isValidSource_loop source rest
  end.

Definition isValidSource (source : string) : bool :=
  isValidSource_loop source GetValidSources.

(** [append(validationErrors, msg)] under [if cond]. *)
Definition appendIf (cond : bool) (msg : string) (errs : list string) : list string :=
  if cond then (errs ++ [msg])%list else errs.

Definition validationErrors (l : Lead) : list string :=
  let errs := [] in
  let errs := appendIf (TrimSpace (Name l) =? "")%string "name is required" errs in
  let errs := appendIf (negb (isValidEmail (Email l))) "valid email is required" errs in
  let errs := appendIf (TrimSpace (Company l) =? "")%string "company is required" errs in
  let errs :=
    appendIf (negb (isValidSource (Source l)))
      ("source must be one of: " ++ Join GetValidSources ", ") errs in
  errs.

(** [(l *Lead) Validate() error] *)
Definition Validate (l : Lead) : option error :=
  let errs := validationErrors l in
  if (0 <? Z.of_nat (length errs)) then Some (errorString (Join errs "; "))
  else None.

(** [(l *Lead) IsEqual(other *Lead) bool] *)
Definition IsEqual (l : Lead) (other : option Lead) : bool :=
  match other with
  | None => false
  | Some o =>
    (Name l =? Name o)%string && (Email l =? Email o)%string
    && (Company l =? Company o)%string && (Source l =? Source o)%string
  end.

End models.

Import models.

(* ================================================================== *)
(** * package api: the HTTP client *)
(* ================================================================== *)

Module api.

Module Lead.
(** [api.Lead]: a lead as the lookup endpoint sends it. *)
Record t : Type := mk {
  ID : string;
  Name : string;
  Email : string;
  Company : string;
  Source : string;
  CreatedAt : Time
}.
End Lead.

Module LookupResponse.
Record t : Type := mk {
  Found : bool;
  Lead : option Lead.t
}.
End LookupResponse.

(** The body of a response, seen through
    [json.NewDecoder(resp.Body).Decode(&lookupResp)]: either the decoder
    fails, or it fills a [LookupResponse]. *)
Inductive Body : Type :=
| Undecodable (err : error)
| Json (lookupResp : LookupResponse.t).

Record Response : Type := mkResponse {
  StatusCode : Z;
  body : Body
}.

(** What [httpClient.Get] returns: a response, or an error (and then no
    response).  The 5 second [Timeout] of the client shows as an error that
    answers [Timeout()] with true. *)
Inductive GetResult : Type :=
| Got (resp : Response)
| Failed (err : error).

(** Everything outside the process that the client touches.  [network]
    says what the n-th request of the run meets, for the URL it asks. *)
Record World : Type := mkWorld {
  network : nat -> string -> GetResult;
  sent : list string;
  slept : list Z;
  now : Time
}.

Definition httpGet (url : string) (w : World) : GetResult * World :=
  (network w (length (sent w)) url,
   mkWorld (network w) (sent w ++ [url])%list (slept w) (now w)).

(** [time.Sleep(d)] *)
Definition Sleep (d : Z) (w : World) : World :=
  mkWorld (network w) (sent w) (slept w ++ [d])%list (now w + d).

Definition Millisecond : Z := 1000000.

Definition StatusOK : Z := 200.
Definition StatusTooManyRequests : Z := 429.

Record APIClient : Type := mkAPIClient {
  baseURL : string
}.

Definition NewAPIClient (baseURL : string) : APIClient := mkAPIClient baseURL.

(** A Go result pair: a pointer to a [T] and an [error]. *)
Definition result (T : Type) : Type := (option T * option error)%type.

Definition isTimeoutError (err : option error) : bool :=
  match err with
  | None => false
  | Some e =>
    match e with
    | urlError _ true => true
    | _ => Contains (Error e) "timeout"
    end
  end.

Definition maxRetries : Z := 3.
Definition baseDelay : Z := wrap64 (100 * Millisecond).

(** [baseDelay * time.Duration(1<<uint(attempt))], in nanoseconds. *)
Definition backoffDelay (attempt : Z) : Z :=
  wrap64 (baseDelay * wrap64 (Z.shiftl 1 attempt)).

(** The [for attempt := 0; attempt < maxRetries; attempt++] loop of
    [handleRateLimit], entered with [remaining] iterations still to run:
    [attempt = maxRetries - remaining] throughout. *)
Fixpoint retryLoop (remaining : nat) (apiURL : string) (attempt : Z) (w : World)
  : result LookupResponse.t * World :=
  match remaining with
  | O => ((None, Some (errorString "max retries exceeded for rate limiting")), w)
  | S remaining' =>
    let delay := backoffDelay attempt in
    let w := Sleep delay w in
    let (got, w) := httpGet apiURL w in
    match got with
    | Failed err =>
      if attempt =? maxRetries - 1
      then ((None, Some (Errorf_w ("failed after " ++ itoa maxRetries ++ " retries: ") err)), w)
      else retryLoop remaining' apiURL (attempt + 1) w
    | Got resp =>
      if StatusCode resp =? StatusOK then
        match body resp with
        | Undecodable err =>
          ((None, Some (Errorf_w "failed to decode response: " err)), w)
        | Json lookupResp => ((Some lookupResp, None), w)
        end
      else if (StatusCode resp =? StatusTooManyRequests) && (attempt <? maxRetries - 1)
      then retryLoop remaining' apiURL (attempt + 1) w
      else
        ((None, Some (errorString ("API returned status " ++ itoa (StatusCode resp)
                                   ++ " after " ++ itoa (attempt + 1) ++ " retries"))), w)
    end
  end.

Definition handleRateLimit (c : APIClient) (apiURL email : string) (w : World)
  : result LookupResponse.t * World :=
  retryLoop (Z.to_nat maxRetries) apiURL 0 w.

(** [fmt.Sprintf("%s/api/leads/lookup?email=%s", c.baseURL, url.QueryEscape(email))] *)
Definition lookupURL (c : APIClient) (email : string) : string :=
  baseURL c ++ "/api/leads/lookup?email=" ++ QueryEscape email.

Definition LookupLead (c : APIClient) (email : string) (w : World)
  : result LookupResponse.t * World :=
  let apiURL := lookupURL c email in
  let (got, w) := httpGet apiURL w in
  match got with
  | Failed err =>
    if isTimeoutError (Some err)
    then ((None, Some (Errorf_w "request timeout: " err)), w)
    else ((None, Some (Errorf_w "failed to make request: " err)), w)
  | Got resp =>
    if StatusCode resp =? StatusTooManyRequests then handleRateLimit c apiURL email w
    else if negb (StatusCode resp =? StatusOK)
    then ((None, Some (errorString ("API returned status " ++ itoa (StatusCode resp)))), w)
    else
      match body resp with
      | Undecodable err => ((None, Some (Errorf_w "failed to decode response: " err)), w)
      | Json lookupResp => ((Some lookupResp, None), w)
      end
  end.

Definition CreateLead (c : APIClient) (lead : models.Lead) (w : World)
  : result models.Lead * World :=
  let createdLead :=
    Lead.mk "generated-id" (models.Name lead) (models.Email lead)
            (models.Company lead) (models.Source lead) (now w) in
  ((Some (mkLead (Lead.ID createdLead) (Lead.Name createdLead) (Lead.Email createdLead)
                 (Lead.Company createdLead) (Lead.Source createdLead)
                 (Lead.CreatedAt createdLead) None),
    None), w).

Definition UpdateLead (c : APIClient) (lead : models.Lead) (w : World)
  : result models.Lead * World :=
  let now := now w in
  let updatedLead :=
    mkLead (models.ID lead) (models.Name lead) (models.Email lead)
           (models.Company lead) (models.Source lead) (models.CreatedAt lead)
           (Some now) in
  ((Some updatedLead, None), w).

End api.

(* ================================================================== *)
(** * package processor: the reconciliation engine *)
(* ================================================================== *)

Module processor.

Module LookupResponse.
Record t : Type := mk {
  Found : bool;
  Lead : option models.Lead
}.
End LookupResponse.

Module ProcessResult.
Record t : Type := mk {
  Action : string;
  Lead : models.Lead;
  CreatedLead : option models.Lead;
  UpdatedLead : option models.Lead;
  Error : option error
}.
End ProcessResult.

(** [APIClient interface]: three methods, each of which may read and change
    the state [S] that stands behind the implementation. *)
Record APIClient (S : Type) : Type := mkAPIClient {
  LookupLead : string -> S -> api.result LookupResponse.t * S;
  CreateLead : models.Lead -> S -> api.result models.Lead * S;
  UpdateLead : models.Lead -> S -> api.result models.Lead * S
}.

(** The outcome of running a piece of Go code: it returns, or it panics
    (here: on a nil pointer dereference). *)
Inductive run (A : Type) : Type :=
| Returns (a : A)
| Panics.
Arguments Panics {A}.

Section Engine.

Variable S : Type.
Variable p : APIClient S.

(** [ProcessLead], a method of [LeadProcessor]: it returns a pointer to a
    [ProcessResult] and an [error]. *)
Definition ProcessLead (lead : models.Lead) (s : S)
  : run ((ProcessResult.t * option error) * S) :=
  match Validate lead with
  | Some err =>
    Returns ((ProcessResult.mk "VALIDATION_ERROR" lead None None (Some err), None), s)
  | None =>
    let '((lookupResp, err), s) := LookupLead p (Email lead) s in
    match err with
    | Some err =>
      Returns ((ProcessResult.mk "API_ERROR" lead None None (Some err), None), s)
    | None =>
      match lookupResp with
      | None => Panics
      | Some lookupResp =>
        if negb (LookupResponse.Found lookupResp) then
          let '((createdLead, err), s) := CreateLead p lead s in
          match err with
          | Some err =>
            Returns ((ProcessResult.mk "CREATE_ERROR" lead None None (Some err), None), s)
          | None =>
            Returns ((ProcessResult.mk "CREATE" lead createdLead None None, None), s)
          end
        else
          let existingLead := LookupResponse.Lead lookupResp in
          if IsEqual lead existingLead then
            Returns ((ProcessResult.mk "SKIP" lead None None None, None), s)
          else
            let '((updatedLead, err), s) := UpdateLead p lead s in
            match err with
            | Some err =>
              Returns ((ProcessResult.mk "UPDATE_ERROR" lead None None (Some err), None), s)
            | None =>
              Returns ((ProcessResult.mk "UPDATE" lead None updatedLead None, None), s)
            end
      end
    end
  end.

End Engine.

(** ** Test doubles *)

(** [MockAPIClient] of the package's tests: canned answers, no state. *)
Record MockAPIClient : Type := mkMock {
  lookupResponse : option LookupResponse.t;
  lookupError : option error;
  createResponse : option models.Lead;
  createError : option error;
  updateResponse : option models.Lead;
  updateError : option error
}.

Definition mock (m : MockAPIClient) : APIClient unit :=
  mkAPIClient
    (fun _ s => ((lookupResponse m, lookupError m), s))
    (fun _ s => ((createResponse m, createError m), s))
    (fun _ s => ((updateResponse m, updateError m), s)).

(** A recording wrapper around any client: every call is appended to a
    journal together with the error it returned, and is otherwise passed
    through unchanged. *)
Inductive Call : Type :=
| CallLookup (email : string)
| CallCreate (lead : models.Lead)
| CallUpdate (lead : models.Lead).

Record Entry : Type := mkEntry {
  call : Call;
  failure : option error
}.

Definition record {S T : Type} (what : Call) (f : S -> api.result T * S)
  (sj : S * list Entry) : api.result T * (S * list Entry) :=
  let '((v, err), s) := f (fst sj) in
  ((v, err), (s, (snd sj ++ [mkEntry what err])%list)).

Definition spy {S : Type} (c : APIClient S) : APIClient (S * list Entry) :=
  mkAPIClient
    (fun email => record (CallLookup email) (LookupLead c email))
    (fun lead => record (CallCreate lead) (CreateLead c lead))
    (fun lead => record (CallUpdate lead) (UpdateLead c lead)).

End processor.

(* ================================================================== *)
(** * package cmd: the adapter and the batch loop *)
(* ================================================================== *)

Module cmd.

Import processor.

Definition convertAPIToProcessorLead (apiLead : option api.Lead.t) : option models.Lead :=
  match apiLead with
  | None => None
  | Some apiLead =>
    Some (mkLead (api.Lead.ID apiLead) (api.Lead.Name apiLead) (api.Lead.Email apiLead)
                 (api.Lead.Company apiLead) (api.Lead.Source apiLead)
                 (api.Lead.CreatedAt apiLead) None)
  end.

(** [APIClientAdapter]: the production client behind the engine's interface.
    Its lookup reads [resp.Found] once [err] is nil; [api.LookupLead] never
    returns nil for both, and a client that did would take the run down at
    the first dereference, which the engine's own dereference stands for. *)
Definition APIClientAdapter (client : api.APIClient) : APIClient api.World :=
  mkAPIClient
    (fun email w =>
       let '((resp, err), w) := api.LookupLead client email w in
       match err with
       | Some err => ((None, Some err), w)
       | None =>
         match resp with
         | None => ((None, None), w)
         | Some resp =>
           ((Some (LookupResponse.mk (api.LookupResponse.Found resp)
                     (convertAPIToProcessorLead (api.LookupResponse.Lead resp))),
             None), w)
         end
       end)
    (fun lead w => api.CreateLead client lead w)
    (fun lead w => api.UpdateLead client lead w).

Record Counters : Type := mkCounters {
  createCount : Z;
  updateCount : Z;
  skipCount : Z;
  errorCount : Z
}.

(** The [if err != nil] test and the [switch result.Action] of the loop
    body.  The two error cases call [result.Error.Error()]. *)
Definition tally (result : ProcessResult.t) (err : option error) (k : Counters)
  : run Counters :=
  match err with
  | Some _ =>
    Returns (mkCounters (createCount k) (updateCount k) (skipCount k) (incr (errorCount k)))
  | None =>
    let action := ProcessResult.Action result in
    if (action =? "CREATE")%string then
      Returns (mkCounters (incr (createCount k)) (updateCount k) (skipCount k) (errorCount k))
    else if (action =? "UPDATE")%string then
      Returns (mkCounters (createCount k) (incr (updateCount k)) (skipCount k) (errorCount k))
    else if (action =? "SKIP")%string then
      Returns (mkCounters (createCount k) (updateCount k) (incr (skipCount k)) (errorCount k))
    else if (action =? "VALIDATION_ERROR")%string || (action =? "API_ERROR")%string then
      match ProcessResult.Error result with
      | None => Panics
      | Some _ =>
        Returns (mkCounters (createCount k) (updateCount k) (skipCount k) (incr (errorCount k)))
      end
    else
      Returns (mkCounters (createCount k) (updateCount k) (skipCount k) (incr (errorCount k)))
  end.

Section Batch.

Variable S : Type.
Variable leadProcessor : APIClient S.

(** [for i, lead := range leads { ... }] *)
Fixpoint processLeads (leads : list models.Lead) (k : Counters) (s : S)
  : run (Counters * S) :=
  match leads with
  | [] => Returns (k, s)
  | lead :: rest =>
    match ProcessLead leadProcessor lead s with
    | Panics => Panics
    | Returns ((result, err), s) =>
      match tally result err k with
      | Panics => Panics
      | Returns k => processLeads rest k s
      end
    end
  end.

End Batch.

(** The summary that closes [runProcessCommand]. *)
Record Summary : Type := mkSummary {
  totalLeads : Z;
  created : Z;
  updated : Z;
  skipped : Z;
  errors : Z
}.

(** [runProcessCommand] from the point where the reader has answered:
    a read error ends the command with an error, otherwise the batch runs
    against [leadProcessor] and the command returns [nil]. *)
Definition runBatch {S : Type} (leadProcessor : APIClient S)
  (leads : list models.Lead) (readErr : option error) (s : S)
  : run ((option Summary * option error) * S) :=
  match readErr with
  | Some err => Returns ((None, Some (Errorf_w "failed to read CSV file: " err)), s)
  | None =>
    match processLeads leadProcessor leads (mkCounters 0 0 0 0) s with
    | Panics => Panics
    | Returns (k, s) =>
      Returns ((Some (mkSummary (Z.of_nat (length leads)) (createCount k) (updateCount k)
                                (skipCount k) (errorCount k)), None), s)
    end
  end.

Definition runProcessCommand (apiURL : string) (leads : list models.Lead)
  (readErr : option error) (w : api.World)
  : run ((option Summary * option error) * api.World) :=
  runBatch (APIClientAdapter (api.NewAPIClient apiURL)) leads readErr w.

End cmd.

(* ================================================================== *)
(** * package models, the constructor, and package csv *)
(* ================================================================== *)

Module csv.

(** Where [NewLead] takes its id and its time stamp from: the n-th lead
    made in a run gets the n-th draw of [uuid.New().String()] and the
    n-th reading of [time.Now()]. *)
Record Origin : Type := mkOrigin {
  uuid : nat -> string;
  clock : nat -> Time;
  made : nat
}.

(** [models.NewLead(name, email, company, source)] *)
Definition NewLead (name email company source : string) (o : Origin) : Lead * Origin :=
  (mkLead (uuid o (made o)) name email company source (clock o (made o)) None,
   mkOrigin (uuid o) (clock o) (S (made o))).

(** What [os.Open] and [csv.Reader.ReadAll] make of the file: one of them
    fails, or the file parses into records.  (With the reader's default
    settings the records all have as many fields as the first one.) *)
Inductive File : Type :=
| OpenFails (err : error)
| ReadAllFails (err : error)
| Records (records : list (list string)).

(** The [for i, record := range records] loop of [ReadLeads]. *)
Fixpoint convert (i : nat) (records : list (list string)) (leads : list Lead)
  (o : Origin) : list Lead * Origin :=
  match records with
  | [] => (leads, o)
  | record :: rest =>
    if Nat.eqb i 0 then convert (S i) rest leads o
    else if Nat.leb 4 (length record) then
      let (lead, o) :=
        NewLead (nth 0 record "") (nth 1 record "") (nth 2 record "")
                (nth 3 record "") o in
      convert (S i) rest (leads ++ [lead])%list o
    else convert (S i) rest leads o
  end.

(** [ReadLeads], a method of [CSVReader]: it returns the leads and an
    [error]. *)
Definition ReadLeads (file : File) (o : Origin) : (list Lead * option error) * Origin :=
  match file with
  | OpenFails err => (([], Some err), o)
  | ReadAllFails err => (([], Some err), o)
  | Records records =>
    let (leads, o) := convert 0 records [] o in
    ((leads, None), o)
  end.

End csv.

(** [runProcessCommand] with its reader: the file is read first, and what
    the reader returns decides whether the batch runs. *)
Definition runProcessFile (apiURL : string) (file : csv.File) (o : csv.Origin)
  (w : api.World)
  : processor.run ((option cmd.Summary * option error) * api.World) :=
  let '((leads, err), _) := csv.ReadLeads file o in
  cmd.runProcessCommand apiURL leads err w.

(* ================================================================== *)
(** * Vocabulary of the statements

    Field updates, the language of a pattern, test doubles, scripted
    networks and the other notions that the properties below are stated
    with.  Nothing here is part of the program. *)
(* ================================================================== *)

Import processor.
Import api.
Import cmd.

(** ** Leads *)

(** Field updates, to state what changing one field does. *)
Definition withName (x : string) (l : Lead) : Lead :=
  mkLead (ID l) x (Email l) (Company l) (Source l) (CreatedAt l) (UpdatedAt l).
Definition withEmail (x : string) (l : Lead) : Lead :=
  mkLead (ID l) (Name l) x (Company l) (Source l) (CreatedAt l) (UpdatedAt l).
Definition withCompany (x : string) (l : Lead) : Lead :=
  mkLead (ID l) (Name l) (Email l) x (Source l) (CreatedAt l) (UpdatedAt l).
Definition withSource (x : string) (l : Lead) : Lead :=
  mkLead (ID l) (Name l) (Email l) (Company l) x (CreatedAt l) (UpdatedAt l).
Definition withIdentity (id : string) (created : Time) (updated : option Time)
  (l : Lead) : Lead :=
  mkLead id (Name l) (Email l) (Company l) (Source l) created updated.

Definition alice : Lead :=
  mkLead "7c9e6679" "Alice Johnson" "alice@example.com" "Acme Inc" "LinkedIn" 1000 None.

(** ** Patterns and their languages *)

(** Every byte of [s] satisfies [p]. *)
Fixpoint allBytes (p : ascii -> bool) (s : string) : bool :=
  match s with
  | EmptyString => true
  | String c rest => p c && allBytes p rest
  end.

(** The language of a pattern. *)
Inductive Matches : regexp -> string -> Prop :=
| MEps : Matches Eps ""
| MClass p c : p c = true -> Matches (Class p) (String c "")
| MCat r1 r2 s1 s2 : Matches r1 s1 -> Matches r2 s2 -> Matches (Cat r1 r2) (s1 ++ s2)
| MAltL r1 r2 s : Matches r1 s -> Matches (Alt r1 r2) s
| MAltR r1 r2 s : Matches r2 s -> Matches (Alt r1 r2) s
| MStarNil r : Matches (Star r) ""
| MStarApp r s1 s2 : Matches r s1 -> Matches (Star r) s2 -> Matches (Star r) (s1 ++ s2).

Create HintDb rx.
#[local] Hint Constructors Matches : rx.

(** The [local-part@domain.tld] shape: a non-empty local part over
    [[a-zA-Z0-9._%+-]], an at sign, a non-empty domain over [[a-zA-Z0-9.-]],
    a dot, and a final label of two or more ASCII letters. *)
Definition EmailShape (email : string) : Prop :=
  exists loc dom tld : string,
    email = loc ++ "@" ++ dom ++ "." ++ tld
    /\ loc <> "" /\ allBytes localChar loc = true
    /\ dom <> "" /\ allBytes domainChar dom = true
    /\ (2 <= String.length tld)%nat /\ allBytes isLetter tld = true.

(** A byte that is not white space and not part of a multi-byte rune. *)
Definition plainByte (c : ascii) : bool :=
  Nat.ltb (nat_of_ascii c) 128 && negb (space1 c).

(** ** Validation messages *)

Definition msgName : string := "name is required".
Definition msgEmail : string := "valid email is required".
Definition msgCompany : string := "company is required".
Definition msgSource : string :=
  "source must be one of: LinkedIn, Website, Conference, Referral, Webinar, Twitter".

(** [Validate] reads the lead through four tests only. *)
Definition report (nameBlank emailBad companyBlank sourceBad : bool) : option error :=
  let errs :=
    appendIf sourceBad ("source must be one of: " ++ Join GetValidSources ", ")
      (appendIf companyBlank "company is required"
        (appendIf emailBad "valid email is required"
          (appendIf nameBlank "name is required" []))) in
  if 0 <? Z.of_nat (length errs) then Some (errorString (Join errs "; ")) else None.

Definition blankLead : Lead := mkLead "0b0b" "" "" "" "" 0 None.

(** ** Clients, tags and test doubles *)

(** A client keeps to the Go convention for result pairs when a lookup
    that reports no error hands back a response. *)
Definition answers {S : Type} (c : processor.APIClient S) : Prop :=
  forall email s,
    fst (fst (processor.LookupLead c email s)) = None ->
    snd (fst (processor.LookupLead c email s)) <> None.

Definition actionTags : list string :=
  ["CREATE"; "UPDATE"; "SKIP"; "VALIDATION_ERROR"; "API_ERROR"; "CREATE_ERROR";
   "UPDATE_ERROR"].

(** The error tag that belongs to a failed call. *)
Definition errorTagOf (what : Call) : string :=
  match what with
  | CallLookup _ => "API_ERROR"
  | CallCreate _ => "CREATE_ERROR"
  | CallUpdate _ => "UPDATE_ERROR"
  end.

(** Unfolds one run of the engine against a recording client, naming the
    answer of every client call that the run meets. *)
Ltac run_engine :=
  unfold ProcessLead, spy, record; simpl;
  repeat match goal with
  | |- context [Validate ?l] => destruct (Validate l) eqn:?; simpl
  | |- context [processor.LookupLead ?c ?e ?s] =>
      destruct (processor.LookupLead c e s) as [[? ?] ?] eqn:?; simpl
  | |- context [processor.CreateLead ?c ?l ?s] =>
      destruct (processor.CreateLead c l s) as [[? ?] ?] eqn:?; simpl
  | |- context [processor.UpdateLead ?c ?l ?s] =>
      destruct (processor.UpdateLead c l s) as [[? ?] ?] eqn:?; simpl
  | |- context [match ?o with Some _ => _ | None => _ end] =>
      destruct o eqn:?; simpl
  | |- context [if negb ?b then _ else _] => destruct b eqn:?; simpl
  | |- context [IsEqual ?l ?o] => destruct (IsEqual l o) eqn:?; simpl
  end.

Definition invalidUser : Lead :=
  mkLead "5d41" "Invalid User" "invalid-email" "Test Company" "LinkedIn" 0 None.

Definition emptyMock : MockAPIClient := mkMock None None None None None None.

Definition john : Lead :=
  mkLead "a3f1" "John Smith" "john@example.com" "New Corp" "Website" 20 None.
Definition johnRemote : Lead :=
  mkLead "lead-7" "John Doe" "john@example.com" "Old Corp" "LinkedIn" 3 None.

Definition notFoundMock : MockAPIClient :=
  mkMock (Some (processor.LookupResponse.mk false None)) None (Some john) None None None.
Definition sameMock : MockAPIClient :=
  mkMock (Some (processor.LookupResponse.mk true (Some (withIdentity "lead-7" 3 None john))))
         None None None None None.
Definition failingUpdateMock : MockAPIClient :=
  mkMock (Some (processor.LookupResponse.mk true (Some johnRemote))) None None None
         None (Some (errorString "API returned status 404")).

Definition lookupDownMock : MockAPIClient :=
  mkMock None (Some (urlError "dial tcp: connection refused" false)) None None None None.

(** ** Networks and the rounds of the retry protocol *)

(** A transport failure or a 429 leaves the retry loop running (when
    attempts remain). *)
Definition retried (got : GetResult) : bool :=
  match got with
  | Failed _ => true
  | Got resp => StatusCode resp =? StatusTooManyRequests
  end.

Definition rateLimited (got : GetResult) : bool :=
  match got with
  | Failed _ => false
  | Got resp => StatusCode resp =? StatusTooManyRequests
  end.

(** The world after [n] more rounds of sleep-then-request, the first of
    them being retry number [attempt]. *)
Fixpoint advance (n : nat) (url : string) (attempt : Z) (w : World) : World :=
  match n with
  | O => w
  | S n' => advance n' url (attempt + 1) (snd (httpGet url (Sleep (backoffDelay attempt) w)))
  end.

Fixpoint delaysFrom (attempt : Z) (n : nat) : list Z :=
  match n with
  | O => []
  | S n' => backoffDelay attempt :: delaysFrom (attempt + 1) n'
  end.

(** The delay sequence of the protocol: 100 ms, 200 ms, 400 ms. *)
Definition backoff : list Z :=
  [100 * Millisecond; 200 * Millisecond; 400 * Millisecond].

(** What a call returns is a response or an error, never neither. *)
Definition properResult {T : Type} (r : api.result T) : Prop :=
  match r with
  | (Some _, None) | (None, Some _) => True
  | _ => False
  end.

(** A scripted network: the n-th request of the run meets the n-th entry,
    and a refused connection once the script is over. *)
Definition script (answers : list GetResult) : nat -> string -> GetResult :=
  fun n _ => nth n answers (Failed (urlError "connect: connection refused" false)).

Definition tooMany : GetResult :=
  Got (mkResponse 429 (Undecodable (errorString "unexpected end of JSON input"))).
Definition notFound : GetResult :=
  Got (mkResponse 200 (Json (LookupResponse.mk false None))).
Definition refused : GetResult :=
  Failed (urlError "connect: connection refused" false).

Definition local : api.APIClient := NewAPIClient "http://localhost:3030".

Definition quiet (answers : list GetResult) : World :=
  mkWorld (script answers) [] [] 0.

(** The sentence of C3 as it is written, for a transport failure of the
    first retry: the call ends in an error and makes no request after the
    failed one. *)
Definition retry_failure_surfaces_at_once : Prop :=
  forall (c : api.APIClient) (email : string) (w : World) (err : error),
    let url := lookupURL c email in
    let n := length (sent w) in
    rateLimited (network w n url) = true ->
    network w (n + 1) url = Failed err ->
    snd (fst (api.LookupLead c email w)) <> None
    /\ length (sent (snd (api.LookupLead c email w))) = (n + 2)%nat.

Definition serverError : GetResult :=
  Got (mkResponse 500 (Undecodable (errorString "unexpected end of JSON input"))).

(** ** Batches and their tallies *)

(** The leads of a batch processed one after the other, in order, each run
    starting from the client state the previous one left. *)
Inductive Processed {S : Type} (c : processor.APIClient S)
  : S -> list Lead -> list ProcessResult.t -> S -> Prop :=
| Processed_nil s : Processed c s [] [] s
| Processed_cons s lead r s1 rest rs s2 :
    ProcessLead c lead s = Returns ((r, None), s1) ->
    Processed c s1 rest rs s2 ->
    Processed c s (lead :: rest) (r :: rs) s2.

Definition hasTag (tag : string) (r : ProcessResult.t) : bool :=
  (ProcessResult.Action r =? tag)%string.

(** Errored: every tag that is not one of the three successes. *)
Definition isErrored (r : ProcessResult.t) : bool :=
  negb (hasTag "CREATE" r) && negb (hasTag "UPDATE" r) && negb (hasTag "SKIP" r).

Definition count (p : ProcessResult.t -> bool) (rs : list ProcessResult.t) : Z :=
  Z.of_nat (length (filter p rs)).

Definition bump (b : bool) : Z := if b then 1 else 0.

Definition batch : list Lead := [alice; invalidUser; john].

(** ** Calls that belong to an outcome *)

(** The client calls that a run ending in [tag] has made, in order. *)
Definition callsOf (lead : Lead) (tag : string) : list Call :=
  if (tag =? "VALIDATION_ERROR")%string then []
  else if (tag =? "API_ERROR")%string || (tag =? "SKIP")%string
  then [CallLookup (Email lead)]
  else if (tag =? "CREATE")%string || (tag =? "CREATE_ERROR")%string
  then [CallLookup (Email lead); CallCreate lead]
  else [CallLookup (Email lead); CallUpdate lead].

Definition isValid (lead : Lead) : bool :=
  match Validate lead with
  | None => true
  | Some _ => false
  end.

(** The emails looked up, as a journal records them. *)
Definition lookups (journal : list Entry) : list string :=
  flat_map (fun entry =>
              match call entry with
              | CallLookup email => [email]
              | _ => []
              end) journal.

(** ** Remote answers *)

(** A network on which every request is answered 200 with "not found". *)
Definition alwaysNotFound (w : World) : Prop :=
  forall n url, exists remote,
    network w n url = Got (mkResponse 200 (Json (LookupResponse.mk false remote))).

(** The lead that the production create returns for [lead] at time [t]. *)
Definition createdFrom (lead : Lead) (t : Time) : Lead :=
  mkLead "generated-id" (Name lead) (Email lead) (Company lead) (Source lead) t None.

(** The lead that the production update returns for [lead] at time [t]. *)
Definition updatedFrom (lead : Lead) (t : Time) : Lead :=
  mkLead (ID lead) (Name lead) (Email lead) (Company lead) (Source lead)
         (CreatedAt lead) (Some t).

Definition aliceRemote : api.Lead.t :=
  api.Lead.mk "1" "Alice Johnson" "alice@example.com" "Acme Inc" "LinkedIn" 5.

Definition foundAlice : GetResult :=
  Got (mkResponse 200 (Json (LookupResponse.mk true (Some aliceRemote)))).

(** ** Valid and invalid leads of a batch *)

Definition validCount (leads : list Lead) : Z :=
  Z.of_nat (length (filter isValid leads)).

Definition invalidCount (leads : list Lead) : Z :=
  Z.of_nat (length (filter (fun l => negb (isValid l)) leads)).

Definition everyoneIsNew : nat -> string -> GetResult :=
  fun _ _ => Got (mkResponse 200 (Json (LookupResponse.mk false None))).

(** ** Bytes of a string *)

(** How often the byte [c] occurs in [s]. *)
Fixpoint occurrences (c : ascii) (s : string) : nat :=
  match s with
  | EmptyString => O
  | String x rest => ((if Ascii.eqb x c then 1 else 0) + occurrences c rest)%nat
  end.

Definition isASCII (c : ascii) : bool := Nat.ltb (nat_of_ascii c) 128.

(** The bytes that [url.QueryEscape] can put out: unreserved characters,
    the plus sign and the percent sign. *)
Definition queryByte (c : ascii) : bool :=
  isLetter c || isDigit c || byteIs 45 c || byteIs 95 c || byteIs 46 c
  || byteIs 126 c || byteIs 43 c || byteIs 37 c.

Definition unhex (c : ascii) : nat :=
  let n := nat_of_ascii c in
  if isDigit c then n - 48 else n - 55.

(** Reading an escaped query component back: [+] is a space, [%XY] the
    byte with hexadecimal digits X and Y, anything else itself. *)
Fixpoint unescapeQuery (s : string) : string :=
  match s with
  | EmptyString => EmptyString
  | String c r1 =>
    if byteIs 43 c then String " " (unescapeQuery r1)
    else if byteIs 37 c then
      match r1 with
      | String h (String l r3) =>
        String (ascii_of_nat (16 * unhex h + unhex l)) (unescapeQuery r3)
      | _ => s
      end
    else String c (unescapeQuery r1)
  end.

(** ** Rows of a file *)

(** The data rows that become leads: all rows but the first, as far as
    they have four fields or more. *)
Definition hasFour (record : list string) : bool := Nat.leb 4 (length record).
Arguments hasFour : simpl never.

Definition keptRows (records : list (list string)) : list (list string) :=
  filter hasFour (tl records).

(** Name, email, company and source of a lead. *)
Definition business (l : Lead) : string * string * string * string :=
  (Name l, Email l, Company l, Source l).

Definition firstFour (record : list string) : string * string * string * string :=
  (nth 0 record "", nth 1 record "", nth 2 record "", nth 3 record "").

(** An id source that does not repeat itself: the n-th id is n strokes. *)
Fixpoint strokes (n : nat) : string :=
  match n with
  | O => EmptyString
  | S n' => String "i" (strokes n')
  end.

Definition numbered : csv.Origin :=
  csv.mkOrigin strokes (fun n => Z.of_nat n) 0.

Definition sampleFile : csv.File :=
  csv.Records
    [ ["Name"; "Email"; "Company"; "Source"];
      ["Alice Johnson"; "alice@example.com"; "Acme Inc"; "LinkedIn"];
      ["Invalid User"; "invalid-email"; "Test Company"; "LinkedIn"] ].

(** Byte sequences in ASCII, and those of ASCII white space only. *)
Definition asciiList (bs : list ascii) : Prop := Forall (fun c => isASCII c = true) bs.
Definition blankList (bs : list ascii) : Prop := Forall (fun c => space1 c = true) bs.

(* ================================================================== *)
(** * Properties of the models *)
(* ================================================================== *)

Lemma IsEqual_spec (a b : Lead) :
  IsEqual a (Some b) = true <->
  Name a = Name b /\ Email a = Email b /\ Company a = Company b /\ Source a = Source b.
Proof.
  unfold IsEqual.
  rewrite !andb_true_iff, !String.eqb_eq. tauto.
Qed.

Lemma IsEqual_false_iff (a b : Lead) :
  IsEqual a (Some b) = false <->
  Name a <> Name b \/ Email a <> Email b \/ Company a <> Company b \/ Source a <> Source b.
Proof.
  unfold IsEqual.
  rewrite !andb_false_iff, !String.eqb_neq. tauto.
Qed.

(** C6. [IsEqual] is business equality: it holds exactly when name, email,
    company and source agree; it is reflexive and symmetric; it ignores id,
    createdAt and updatedAt; changing one of the four business fields makes
    it false; and it is false against an absent lead. *)
Theorem C6_IsEqual_is_business_equality (a b : Lead) :
  (IsEqual a (Some b) = true <->
     Name a = Name b /\ Email a = Email b /\ Company a = Company b
     /\ Source a = Source b)
  /\ IsEqual a (Some a) = true
  /\ IsEqual a (Some b) = IsEqual b (Some a)
  /\ (forall id id' t t' u u',
        IsEqual (withIdentity id t u a) (Some (withIdentity id' t' u' b))
        = IsEqual a (Some b))
  /\ (forall x, x <> Name a -> IsEqual a (Some (withName x a)) = false)
  /\ (forall x, x <> Email a -> IsEqual a (Some (withEmail x a)) = false)
  /\ (forall x, x <> Company a -> IsEqual a (Some (withCompany x a)) = false)
  /\ (forall x, x <> Source a -> IsEqual a (Some (withSource x a)) = false)
  /\ IsEqual a None = false.
Proof.
  split; [apply IsEqual_spec|].
  split; [apply IsEqual_spec; tauto|].
  split.
  { unfold IsEqual.
    rewrite (String.eqb_sym (Name a)), (String.eqb_sym (Email a)),
      (String.eqb_sym (Company a)), (String.eqb_sym (Source a)).
    reflexivity. }
  split; [reflexivity|].
  repeat split; try reflexivity;
    intros x Hx; apply IsEqual_false_iff; simpl; intuition congruence.
Qed.

Lemma C6_witness :
  IsEqual alice (Some (withCompany "Acme Ltd" alice)) = false
  /\ IsEqual (withIdentity "local-1" 7 None alice)
             (Some (withIdentity "lead-1" 5 (Some 9) alice)) = true.
Proof.
  destruct (C6_IsEqual_is_business_equality alice alice)
    as (Hiff & _ & _ & Hid & _ & _ & Hcompany & _).
  split.
  - apply Hcompany. discriminate.
  - rewrite Hid. apply Hiff. repeat split.
Defined.

(* ================================================================== *)
(** * What the anchored email pattern accepts *)
(* ================================================================== *)

Section StringFacts.

Lemma append_nil_r (s : string) : s ++ "" = s.
Proof. induction s; simpl; congruence. Qed.

Lemma append_assoc (a b c : string) : (a ++ b) ++ c = a ++ (b ++ c).
Proof. induction a; simpl; congruence. Qed.

Lemma append_eq_nil (a b : string) : a ++ b = "" -> a = "" /\ b = "".
Proof. destruct a; simpl; intros H; [auto | discriminate]. Qed.

Lemma length_append (a b : string) :
  String.length (a ++ b) = (String.length a + String.length b)%nat.
Proof. induction a; simpl; congruence. Qed.

End StringFacts.

Lemma allBytes_append p a b :
  allBytes p (a ++ b) = allBytes p a && allBytes p b.
Proof. induction a; simpl; [reflexivity | rewrite IHa; apply andb_assoc]. Qed.

Lemma nullable_Matches r : nullable r = true <-> Matches r "".
Proof.
  induction r; simpl.
  - split; [discriminate | inversion 1].
  - split; auto with rx.
  - split; [discriminate | inversion 1].
  - rewrite andb_true_iff, IHr1, IHr2. split.
    + intros [H1 H2]. change "" with ("" ++ ""). auto with rx.
    + inversion 1; subst.
      match goal with H : _ ++ _ = "" |- _ => apply append_eq_nil in H; destruct H end.
      subst. auto.
  - rewrite orb_true_iff, IHr1, IHr2. split.
    + intros [H | H]; auto with rx.
    + inversion 1; subst; auto.
  - split; auto with rx.
Qed.

(** A non-empty word of [r*] starts with a non-empty word of [r]. *)
Lemma Matches_Star_cons r s :
  Matches (Star r) s -> forall c rest, s = String c rest ->
  exists s1 s2, rest = s1 ++ s2 /\ Matches r (String c s1) /\ Matches (Star r) s2.
Proof.
  intros H. remember (Star r) as r' eqn:E.
  induction H; try discriminate; inversion E; subst.
  intros c rest Hs. destruct s1 as [|c1 s1]; simpl in Hs.
  - apply IHMatches2; auto.
  - inversion Hs; subst. eauto.
Qed.

Lemma deriv_Matches r : forall c s, Matches (deriv c r) s <-> Matches r (String c s).
Proof.
  induction r; intros c s; simpl.
  - split; inversion 1.
  - split; inversion 1.
  - destruct (p c) eqn:Hp; split.
    + inversion 1; subst. auto with rx.
    + inversion 1; subst. constructor.
    + inversion 1.
    + inversion 1; subst. congruence.
  - assert (Hcat : Matches (Cat (deriv c r1) r2) s ->
                   Matches (Cat r1 r2) (String c s)).
    { inversion 1; subst.
      change (String c (s1 ++ s2)) with (String c s1 ++ s2).
      constructor; [apply IHr1|]; assumption. }
    assert (Hinv : Matches (Cat r1 r2) (String c s) ->
                   Matches (Cat (deriv c r1) r2) s \/
                   (Matches r1 "" /\ Matches (deriv c r2) s)).
    { inversion 1; subst. destruct s1 as [|c1 s1]; simpl in *.
      - right. split; [assumption | apply IHr2; congruence].
      - match goal with H : String _ _ = String _ _ |- _ => inversion H; subst end.
        left. constructor; [apply IHr1|]; assumption. }
    destruct (nullable r1) eqn:Hn; split.
    + inversion 1; subst; [auto|].
      change (String c s) with ("" ++ String c s).
      constructor; [apply nullable_Matches | apply IHr2]; assumption.
    + intros H. destruct (Hinv H) as [H1 | [_ H2]]; auto with rx.
    + auto.
    + intros H. destruct (Hinv H) as [H1 | [H0 _]]; [assumption|].
      apply nullable_Matches in H0. congruence.
  - split.
    + inversion 1; subst; [apply MAltL, IHr1 | apply MAltR, IHr2]; assumption.
    + inversion 1; subst; [apply MAltL, IHr1 | apply MAltR, IHr2]; assumption.
  - split.
    + inversion 1; subst.
      change (String c (s1 ++ s2)) with (String c s1 ++ s2).
      constructor; [apply IHr|]; assumption.
    + intros H.
      destruct (Matches_Star_cons H eq_refl) as (s1 & s2 & -> & H1 & H2).
      constructor; [apply IHr|]; assumption.
Qed.

(** The matcher decides the language. *)
Lemma MatchString_Matches s : forall r, MatchString r s = true <-> Matches r s.
Proof.
  induction s as [|c s IH]; intros r; simpl.
  - apply nullable_Matches.
  - rewrite IH. apply deriv_Matches.
Qed.

Lemma Matches_Class p s :
  Matches (Class p) s <-> exists c, s = String c "" /\ p c = true.
Proof.
  split.
  - inversion 1; subst; eauto.
  - intros (c & -> & Hp). auto with rx.
Qed.

Lemma Matches_Cat r1 r2 s :
  Matches (Cat r1 r2) s <->
  exists s1 s2, s = s1 ++ s2 /\ Matches r1 s1 /\ Matches r2 s2.
Proof.
  split.
  - inversion 1; subst; eauto.
  - intros (s1 & s2 & -> & H1 & H2). auto with rx.
Qed.

Lemma Matches_Star_Class p s :
  Matches (Star (Class p)) s <-> allBytes p s = true.
Proof.
  split.
  - intros H. remember (Star (Class p)) as r eqn:E.
    induction H; try discriminate; inversion E; subst; [reflexivity|].
    rewrite allBytes_append, IHMatches2 by reflexivity.
    apply Matches_Class in H. destruct H as (c & -> & Hp).
    simpl. rewrite Hp. reflexivity.
  - induction s as [|c s IH]; simpl; intros H; [auto with rx|].
    apply andb_true_iff in H. destruct H as [Hc Hs].
    change (String c s) with (String c "" ++ s). auto with rx.
Qed.

Lemma Matches_Plus_Class p s :
  Matches (Plus (Class p)) s <-> s <> "" /\ allBytes p s = true.
Proof.
  unfold Plus. rewrite Matches_Cat. split.
  - intros (s1 & s2 & -> & H1 & H2).
    apply Matches_Class in H1. destruct H1 as (c & -> & Hp).
    apply Matches_Star_Class in H2. simpl. rewrite Hp, H2.
    split; [discriminate | reflexivity].
  - intros [Hne H]. destruct s as [|c s]; [congruence|].
    simpl in H. apply andb_true_iff in H. destruct H as [Hc Hs].
    exists (String c ""), s. repeat split.
    + auto with rx.
    + apply Matches_Star_Class; assumption.
Qed.

Lemma Matches_AtLeast2_Class p s :
  Matches (AtLeast2 (Class p)) s <->
  (2 <= String.length s)%nat /\ allBytes p s = true.
Proof.
  unfold AtLeast2. rewrite Matches_Cat. split.
  - intros (s1 & s2 & -> & H1 & H2).
    apply Matches_Class in H1. destruct H1 as (c & -> & Hp).
    apply (Matches_Plus_Class p) in H2. destruct H2 as [Hne H2].
    simpl. rewrite Hp, H2. split; [|reflexivity].
    destruct s2; [congruence | simpl; lia].
  - intros [Hlen H]. destruct s as [|c s]; simpl in Hlen; [lia|].
    simpl in H. apply andb_true_iff in H. destruct H as [Hc Hs].
    exists (String c ""), s. repeat split.
    + auto with rx.
    + apply (Matches_Plus_Class p). split; [|assumption].
      destruct s; simpl in Hlen; [lia | discriminate].
Qed.

Lemma Matches_Lit c s : Matches (Lit c) s <-> s = String c "".
Proof.
  unfold Lit. rewrite Matches_Class. split.
  - intros (c' & -> & Hc). apply Ascii.eqb_eq in Hc. congruence.
  - intros ->. exists c. split; [reflexivity | apply Ascii.eqb_refl].
Qed.

Lemma emailRegex_shape email : Matches emailRegex email <-> EmailShape email.
Proof.
  unfold emailRegex, EmailShape. rewrite Matches_Cat. split.
  - intros (loc & s1 & -> & Hloc & H1).
    apply Matches_Cat in H1. destruct H1 as (a & s2 & -> & Ha & H2).
    apply Matches_Lit in Ha. subst a.
    apply Matches_Cat in H2. destruct H2 as (dom & s3 & -> & Hdom & H3).
    apply Matches_Cat in H3. destruct H3 as (d & tld & -> & Hd & Htld).
    apply Matches_Lit in Hd. subst d.
    apply Matches_Plus_Class in Hloc. apply Matches_Plus_Class in Hdom.
    apply Matches_AtLeast2_Class in Htld.
    exists loc, dom, tld. tauto.
  - intros (loc & dom & tld & -> & Hl1 & Hl2 & Hd1 & Hd2 & Ht1 & Ht2).
    exists loc, ("@" ++ dom ++ "." ++ tld). split; [reflexivity|]. split.
    { apply Matches_Plus_Class. auto. }
    apply Matches_Cat. exists "@", (dom ++ "." ++ tld).
    split; [reflexivity|]. split; [apply Matches_Lit; reflexivity|].
    apply Matches_Cat. exists dom, ("." ++ tld).
    split; [reflexivity|]. split; [apply Matches_Plus_Class; auto|].
    apply Matches_Cat. exists ".", tld.
    split; [reflexivity|]. split; [apply Matches_Lit; reflexivity|].
    apply Matches_AtLeast2_Class. auto.
Qed.

(** ** The white space guard of [isValidEmail] never rejects a match *)

Lemma localChar_plain c : localChar c = true -> plainByte c = true.
Proof.
  destruct c as [b0 b1 b2 b3 b4 b5 b6 b7].
  destruct b0, b1, b2, b3, b4, b5, b6, b7; vm_compute; intros H;
    first [reflexivity | discriminate H].
Qed.

Lemma isLetter_plain c : isLetter c = true -> plainByte c = true.
Proof.
  destruct c as [b0 b1 b2 b3 b4 b5 b6 b7].
  destruct b0, b1, b2, b3, b4, b5, b6, b7; vm_compute; intros H;
    first [reflexivity | discriminate H].
Qed.

Lemma byteIs_plain n c :
  (128 <= n)%nat -> plainByte c = true -> byteIs n c = false.
Proof.
  unfold plainByte, byteIs. intros Hn H.
  apply andb_true_iff in H. destruct H as [H _].
  apply Nat.ltb_lt in H. apply Nat.eqb_neq. lia.
Qed.

Lemma byteIn_plain lo hi c :
  (128 <= lo)%nat -> plainByte c = true -> byteIn lo hi c = false.
Proof.
  unfold plainByte, byteIn. intros Hn H.
  apply andb_true_iff in H. destruct H as [H _].
  apply Nat.ltb_lt in H.
  apply andb_false_iff. left. apply Nat.leb_gt. lia.
Qed.

Lemma dropSpace_plain fwd c bs :
  plainByte c = true -> dropSpace fwd (c :: bs) = c :: bs.
Proof.
  intros H.
  assert (H1 : space1 c = false).
  { unfold plainByte in H. apply andb_true_iff in H.
    destruct H as [_ H]. apply negb_true_iff in H. exact H. }
  simpl. rewrite H1.
  destruct bs as [|c2 [|c3 bs]]; try reflexivity;
    destruct fwd; unfold space2, space3;
    rewrite ?(byteIs_plain (n:=194)), ?(byteIs_plain (n:=133)),
      ?(byteIs_plain (n:=160)), ?(byteIs_plain (n:=225)),
      ?(byteIs_plain (n:=226)), ?(byteIs_plain (n:=227)),
      ?(byteIs_plain (n:=128)), ?(byteIs_plain (n:=168)),
      ?(byteIs_plain (n:=169)), ?(byteIs_plain (n:=175)),
      ?(byteIs_plain (n:=159)), ?(byteIn_plain (lo:=128) 138)
      by (assumption || lia);
    rewrite ?andb_false_r, ?andb_false_l; simpl;
    rewrite ?andb_false_r, ?andb_false_l; reflexivity.
Qed.

Lemma list_ascii_of_append (a b : string) :
  list_ascii_of_string (a ++ b)
  = (list_ascii_of_string a ++ list_ascii_of_string b)%list.
Proof. induction a; simpl; congruence. Qed.

Lemma allBytes_last p s :
  s <> "" -> allBytes p s = true ->
  exists front z, list_ascii_of_string s = (front ++ [z])%list /\ p z = true.
Proof.
  induction s as [|c s IH]; [congruence|]. intros _ H.
  simpl in H. apply andb_true_iff in H. destruct H as [Hc Hs].
  destruct s as [|c' s'].
  - exists [], c. auto.
  - destruct IH as (front & z & E & Hz); [discriminate | assumption |].
    exists (c :: front), z. simpl in *. rewrite E. auto.
Qed.

Lemma TrimSpace_plain_ends s c rest front z :
  list_ascii_of_string s = c :: rest ->
  list_ascii_of_string s = (front ++ [z])%list ->
  plainByte c = true -> plainByte z = true ->
  TrimSpace s <> "".
Proof.
  intros E1 E2 Hc Hz. unfold TrimSpace.
  rewrite E1, dropSpace_plain by assumption.
  rewrite <- E1, E2, rev_unit.
  rewrite dropSpace_plain by assumption.
  simpl. rewrite rev_involutive.
  destruct front; simpl; discriminate.
Qed.

Lemma EmailShape_not_blank email : EmailShape email -> TrimSpace email <> "".
Proof.
  intros (loc & dom & tld & -> & Hl1 & Hl2 & _ & _ & Ht1 & Ht2).
  destruct loc as [|c loc]; [congruence|].
  simpl in Hl2. apply andb_true_iff in Hl2. destruct Hl2 as [Hc _].
  destruct (@allBytes_last isLetter tld) as (front & z & E & Hz); auto.
  { destruct tld; simpl in Ht1; [lia | discriminate]. }
  eapply TrimSpace_plain_ends with (c := c) (z := z).
  - simpl. reflexivity.
  - rewrite !list_ascii_of_append, E.
    rewrite !app_assoc. reflexivity.
  - apply localChar_plain; assumption.
  - apply isLetter_plain; assumption.
Qed.

Lemma isValidEmail_spec email : isValidEmail email = true <-> EmailShape email.
Proof.
  unfold isValidEmail.
  destruct (String.eqb_spec (TrimSpace email) "") as [E | E].
  - split; [discriminate|]. intros H.
    apply EmailShape_not_blank in H. contradiction.
  - rewrite MatchString_Matches. apply emailRegex_shape.
Qed.

Lemma isValidSource_spec source :
  isValidSource source = true <-> In source GetValidSources.
Proof.
  unfold isValidSource. generalize GetValidSources as l.
  induction l as [|v l IH]; simpl.
  - split; [discriminate | tauto].
  - destruct (String.eqb_spec source v) as [-> | Hne].
    + tauto.
    + rewrite IH. split; [tauto|]. intros [H | H]; [congruence | assumption].
Qed.

(* ================================================================== *)
(** * Validation *)
(* ================================================================== *)

Lemma Validate_report (l : Lead) :
  Validate l =
  report (TrimSpace (Name l) =? "")%string (negb (isValidEmail (Email l)))
         (TrimSpace (Company l) =? "")%string (negb (isValidSource (Source l))).
Proof. reflexivity. Qed.

Lemma report_spec (b1 b2 b3 b4 : bool) :
  (report b1 b2 b3 b4 = None <-> b1 = false /\ b2 = false /\ b3 = false /\ b4 = false)
  /\ (forall e, report b1 b2 b3 b4 = Some e ->
        Contains (Error e) msgName = b1
        /\ Contains (Error e) msgEmail = b2
        /\ Contains (Error e) msgCompany = b3
        /\ Contains (Error e) msgSource = b4).
Proof.
  destruct b1, b2, b3, b4; vm_compute; split;
    try (split; [discriminate | intuition discriminate]);
    try (intros e H; inversion H; subst; vm_compute; repeat split);
    try (intros e H; discriminate H).
  split; auto.
Qed.

(** C5. [Validate] tests the four rules independently and reports every
    violated one in a single message: it returns no error exactly when
    the name and the company are non-blank after trimming, the email has the
    [local@domain.tld] shape and the source is one of the six allowed
    values; otherwise the message is the violated rules' messages joined by
    a semicolon, so each rule's message occurs in it exactly when that rule
    is violated.  With all four fields blank all four messages are there. *)
Theorem C5_Validate_reports_every_violation (l : Lead) :
  (Validate l = None <->
     TrimSpace (Name l) <> "" /\ EmailShape (Email l)
     /\ TrimSpace (Company l) <> "" /\ In (Source l) GetValidSources)
  /\ (forall e, Validate l = Some e ->
        Error e = Join (validationErrors l) "; "
        /\ (Contains (Error e) msgName = true <-> TrimSpace (Name l) = "")
        /\ (Contains (Error e) msgEmail = true <-> ~ EmailShape (Email l))
        /\ (Contains (Error e) msgCompany = true <-> TrimSpace (Company l) = "")
        /\ (Contains (Error e) msgSource = true <-> ~ In (Source l) GetValidSources))
  /\ (Name l = "" -> Email l = "" -> Company l = "" -> Source l = "" ->
        Validate l = Some (errorString
          (msgName ++ "; " ++ msgEmail ++ "; " ++ msgCompany ++ "; " ++ msgSource))).
Proof.
  split; [|split].
  - rewrite Validate_report.
    rewrite (proj1 (report_spec _ _ _ _)).
    rewrite !negb_false_iff, !String.eqb_neq, isValidEmail_spec, isValidSource_spec.
    tauto.
  - intros e He. split.
    { unfold Validate in He.
      destruct (0 <? Z.of_nat (length (validationErrors l))); inversion He.
      reflexivity. }
    rewrite Validate_report in He.
    destruct (proj2 (report_spec _ _ _ _) e He) as (H1 & H2 & H3 & H4).
    rewrite H1, H2, H3, H4.
    rewrite !negb_true_iff, !String.eqb_eq.
    rewrite <- isValidEmail_spec, <- isValidSource_spec.
    rewrite !not_true_iff_false. tauto.
  - intros E1 E2 E3 E4. unfold Validate, validationErrors.
    rewrite E1, E2, E3, E4. vm_compute. reflexivity.
Qed.

Lemma C5_witness :
  Validate alice = None
  /\ option_map Error (Validate blankLead)
     = Some (msgName ++ "; " ++ msgEmail ++ "; " ++ msgCompany ++ "; " ++ msgSource).
Proof.
  destruct (C5_Validate_reports_every_violation alice) as (Hvalid & _ & _).
  destruct (C5_Validate_reports_every_violation blankLead) as (_ & _ & Hblank).
  split.
  - apply Hvalid. repeat split.
    + vm_compute. discriminate.
    + apply isValidEmail_spec. vm_compute. reflexivity.
    + vm_compute. discriminate.
    + simpl. tauto.
  - rewrite Hblank; reflexivity.
Defined.

(* ================================================================== *)
(** * The reconciliation engine *)
(* ================================================================== *)

(** The recording wrapper changes nothing but the journal. *)
Lemma ProcessLead_spy {S : Type} (c : processor.APIClient S) lead s journal :
  exists calls,
    ProcessLead (spy c) lead (s, journal) =
    match ProcessLead c lead s with
    | Returns (out, s') => Returns (out, (s', (journal ++ calls)%list))
    | Panics => Panics
    end.
Proof.
  unfold ProcessLead at 2.
  run_engine;
    first [ exists []; rewrite ?app_nil_r; reflexivity
          | eexists; rewrite <- ?app_assoc; reflexivity ].
Qed.

Lemma Validate_validationErrors lead :
  validationErrors lead <> [] ->
  Validate lead = Some (errorString (Join (validationErrors lead) "; ")).
Proof.
  unfold Validate. destruct (validationErrors lead); [congruence|]. reflexivity.
Qed.

(** C4. A lead with at least one validation error ends in
    [VALIDATION_ERROR] with the joined message, and the run makes no call
    to lookup, create or update: the journal of the recording client and
    the state behind the client are as they were. *)
Theorem C4_invalid_lead_never_reaches_client
  (S : Type) (c : processor.APIClient S) (lead : Lead) (s : S) (journal : list Entry) :
  validationErrors lead <> [] ->
  ProcessLead (spy c) lead (s, journal) =
  Returns
    ((ProcessResult.mk "VALIDATION_ERROR" lead None None
        (Some (errorString (Join (validationErrors lead) "; "))), None),
     (s, journal)).
Proof.
  intros H. unfold ProcessLead.
  rewrite (Validate_validationErrors lead H). reflexivity.
Qed.

Lemma C4_witness :
  ProcessLead (spy (mock emptyMock)) invalidUser (tt, []) =
  Returns
    ((ProcessResult.mk "VALIDATION_ERROR" invalidUser None None
        (Some (errorString "valid email is required")), None),
     (tt, [])).
Proof.
  apply (@C4_invalid_lead_never_reaches_client unit (mock emptyMock) invalidUser tt []).
  vm_compute. discriminate.
Defined.

(** C1. Once the lead is valid and the lookup has answered, the decision
    depends on the answer and on business equality only.  Not found: one
    create call, [CREATE] with the created lead or [CREATE_ERROR] with the
    error.  Found and equal: [SKIP], and the journal holds the lookup alone.
    Found and not equal: one update call, [UPDATE] with the updated lead or
    [UPDATE_ERROR] with the error. *)
Theorem C1_decide_by_lookup_and_equality
  (S : Type) (c : processor.APIClient S) (lead : Lead) (s s1 : S) (resp : processor.LookupResponse.t) :
  Validate lead = None ->
  processor.LookupLead c (Email lead) s = ((Some resp, None), s1) ->
  let looked := mkEntry (CallLookup (Email lead)) None in
  (processor.LookupResponse.Found resp = false ->
   forall created err s2,
     processor.CreateLead c lead s1 = ((created, err), s2) ->
     ProcessLead (spy c) lead (s, []) =
     Returns
       ((match err with
         | None => ProcessResult.mk "CREATE" lead created None None
         | Some e => ProcessResult.mk "CREATE_ERROR" lead None None (Some e)
         end, None),
        (s2, [looked; mkEntry (CallCreate lead) err])))
  /\ (processor.LookupResponse.Found resp = true ->
      IsEqual lead (processor.LookupResponse.Lead resp) = true ->
      ProcessLead (spy c) lead (s, []) =
      Returns ((ProcessResult.mk "SKIP" lead None None None, None), (s1, [looked])))
  /\ (processor.LookupResponse.Found resp = true ->
      IsEqual lead (processor.LookupResponse.Lead resp) = false ->
      forall updated err s2,
        processor.UpdateLead c lead s1 = ((updated, err), s2) ->
        ProcessLead (spy c) lead (s, []) =
        Returns
          ((match err with
            | None => ProcessResult.mk "UPDATE" lead None updated None
            | Some e => ProcessResult.mk "UPDATE_ERROR" lead None None (Some e)
            end, None),
           (s2, [looked; mkEntry (CallUpdate lead) err]))).
Proof.
  intros Hvalid Hlookup looked. subst looked.
  repeat split.
  - intros Hfound created err s2 Hcreate.
    unfold ProcessLead, spy, record; simpl.
    rewrite Hvalid, Hlookup; simpl. rewrite Hfound; simpl.
    rewrite Hcreate; simpl. destruct err; reflexivity.
  - intros Hfound Heq.
    unfold ProcessLead, spy, record; simpl.
    rewrite Hvalid, Hlookup; simpl. rewrite Hfound; simpl.
    rewrite Heq. reflexivity.
  - intros Hfound Heq updated err s2 Hupdate.
    unfold ProcessLead, spy, record; simpl.
    rewrite Hvalid, Hlookup; simpl. rewrite Hfound; simpl.
    rewrite Heq, Hupdate; simpl. destruct err; reflexivity.
Qed.

Lemma C1_witness :
  ProcessLead (spy (mock notFoundMock)) john (tt, []) =
    Returns ((ProcessResult.mk "CREATE" john (Some john) None None, None),
             (tt, [mkEntry (CallLookup "john@example.com") None;
                   mkEntry (CallCreate john) None]))
  /\ ProcessLead (spy (mock sameMock)) john (tt, []) =
    Returns ((ProcessResult.mk "SKIP" john None None None, None),
             (tt, [mkEntry (CallLookup "john@example.com") None]))
  /\ ProcessLead (spy (mock failingUpdateMock)) john (tt, []) =
    Returns ((ProcessResult.mk "UPDATE_ERROR" john None None
                (Some (errorString "API returned status 404")), None),
             (tt, [mkEntry (CallLookup "john@example.com") None;
                   mkEntry (CallUpdate john)
                     (Some (errorString "API returned status 404"))])).
Proof.
  split; [|split].
  - destruct (@C1_decide_by_lookup_and_equality unit (mock notFoundMock) john tt tt
                (processor.LookupResponse.mk false None) eq_refl eq_refl) as (H & _ & _).
    exact (H eq_refl (Some john) None tt eq_refl).
  - destruct (@C1_decide_by_lookup_and_equality unit (mock sameMock) john tt tt
                (processor.LookupResponse.mk true (Some (withIdentity "lead-7" 3 None john)))
                eq_refl eq_refl) as (_ & H & _).
    exact (H eq_refl eq_refl).
  - destruct (@C1_decide_by_lookup_and_equality unit (mock failingUpdateMock) john tt tt
                (processor.LookupResponse.mk true (Some johnRemote)) eq_refl eq_refl)
      as (_ & _ & H).
    exact (H eq_refl eq_refl None (Some (errorString "API returned status 404")) tt
             eq_refl).
Defined.

(** C7. Against any client that keeps to the result convention, one run of
    the engine returns a result carrying one of the seven tags and a nil
    error, never panics, and turns every error that a client call returned
    during the run into the result's error under the error tag of that
    call. *)
Theorem C7_errors_become_outcomes
  (S : Type) (c : processor.APIClient S) (lead : Lead) (s : S) :
  answers c ->
  exists r s' journal,
    ProcessLead (spy c) lead (s, []) = Returns ((r, None), (s', journal))
    /\ ProcessLead c lead s = Returns ((r, None), s')
    /\ In (ProcessResult.Action r) actionTags
    /\ ProcessResult.Lead r = lead
    /\ (forall entry e,
          In entry journal -> failure entry = Some e ->
          ProcessResult.Error r = Some e
          /\ ProcessResult.Action r = errorTagOf (call entry)).
Proof.
  intros Hc.
  pose proof (Hc (Email lead) s) as Hlookup.
  unfold ProcessLead at 2.
  run_engine;
    try (exfalso; simpl in Hlookup; apply Hlookup; reflexivity);
    do 3 eexists;
    (split; [reflexivity|]); (split; [reflexivity|]);
    (split; [unfold actionTags; simpl; tauto|]); (split; [reflexivity|]);
    intros entry cause Hin Hfail; simpl in Hin;
    repeat match goal with
    | H : _ \/ _ |- _ => destruct H
    | H : False |- _ => contradiction
    end; subst; simpl in *; try discriminate;
    match goal with H : Some _ = Some _ |- _ => inversion H; subst end;
    split; reflexivity.
Qed.

(** Outside the convention the engine has no defence: the zero-valued
    test double answers a lookup with neither response nor error, and the
    run ends at [lookupResp.Found]. *)
Example nil_response_panics :
  ProcessLead (mock emptyMock) john tt = Panics.
Proof. vm_compute. reflexivity. Qed.

Lemma C7_witness :
  exists r s' journal,
    ProcessLead (spy (mock lookupDownMock)) john (tt, [])
    = Returns ((r, None), (s', journal))
    /\ ProcessLead (mock lookupDownMock) john tt = Returns ((r, None), s')
    /\ In (ProcessResult.Action r) actionTags
    /\ ProcessResult.Lead r = john
    /\ (forall entry e,
          In entry journal -> failure entry = Some e ->
          ProcessResult.Error r = Some e
          /\ ProcessResult.Action r = errorTagOf (call entry)).
Proof.
  apply (@C7_errors_become_outcomes unit (mock lookupDownMock) john tt).
  intros email s. simpl. discriminate.
Defined.

(* ================================================================== *)
(** * The HTTP client: create, update and the retry protocol *)
(* ================================================================== *)

(** C9. The lead that [UpdateLead] returns has the id and the createdAt of
    the lead it was given, and its updatedAt is set (to the time of the
    call). *)
Theorem C9_update_keeps_identity (c : api.APIClient) (lead : Lead) (w : World) :
  exists updated,
    api.UpdateLead c lead w = ((Some updated, None), w)
    /\ ID updated = ID lead
    /\ CreatedAt updated = CreatedAt lead
    /\ UpdatedAt updated = Some (now w).
Proof.
  eexists. split; [reflexivity|]. simpl. repeat split.
Qed.

Lemma delaysFrom_backoff n : (n <= 3)%nat -> delaysFrom 0 n = firstn n backoff.
Proof.
  intros H. destruct n as [|[|[|[|n]]]]; try reflexivity. lia.
Qed.

Lemma advance_network n url : forall a w, network (advance n url a w) = network w.
Proof. induction n; intros a w; simpl; [reflexivity | rewrite IHn; reflexivity]. Qed.

Lemma advance_sent n url : forall a w,
  sent (advance n url a w) = (sent w ++ repeat url n)%list.
Proof.
  induction n; intros a w; simpl.
  - rewrite app_nil_r. reflexivity.
  - rewrite IHn. simpl. rewrite <- app_assoc. reflexivity.
Qed.

Lemma advance_slept n url : forall a w,
  slept (advance n url a w) = (slept w ++ delaysFrom a n)%list.
Proof.
  induction n; intros a w; simpl.
  - rewrite app_nil_r. reflexivity.
  - rewrite IHn. simpl. rewrite <- app_assoc. reflexivity.
Qed.

Lemma advance_now n url : forall a w,
  now (advance n url a w) = now w + fold_right Z.add 0 (delaysFrom a n).
Proof.
  induction n; intros a w; simpl.
  - lia.
  - rewrite IHn. simpl. lia.
Qed.

Lemma advance_snoc n url : forall a w,
  advance (S n) url a w
  = snd (httpGet url (Sleep (backoffDelay (a + Z.of_nat n)) (advance n url a w))).
Proof.
  induction n; intros a w.
  - simpl. rewrite Z.add_0_r. reflexivity.
  - change (advance (S (S n)) url a w)
      with (advance (S n) url (a + 1) (snd (httpGet url (Sleep (backoffDelay a) w)))).
    rewrite IHn. simpl advance.
    replace (a + 1 + Z.of_nat n) with (a + Z.of_nat (S n)) by lia.
    reflexivity.
Qed.

(** One iteration of the loop, by what the request of that iteration meets. *)
Lemma retryLoop_step k url a w :
  retryLoop (S k) url a w =
  let w1 := snd (httpGet url (Sleep (backoffDelay a) w)) in
  match network w (length (sent w)) url with
  | Failed err =>
    if a =? maxRetries - 1
    then ((None, Some (Errorf_w ("failed after " ++ itoa maxRetries ++ " retries: ") err)), w1)
    else retryLoop k url (a + 1) w1
  | Got resp =>
    if StatusCode resp =? StatusOK then
      match body resp with
      | Undecodable err => ((None, Some (Errorf_w "failed to decode response: " err)), w1)
      | Json lookupResp => ((Some lookupResp, None), w1)
      end
    else if (StatusCode resp =? StatusTooManyRequests) && (a <? maxRetries - 1)
    then retryLoop k url (a + 1) w1
    else ((None, Some (errorString ("API returned status " ++ itoa (StatusCode resp)
                                    ++ " after " ++ itoa (a + 1) ++ " retries"))), w1)
  end.
Proof. reflexivity. Qed.

(** While the requests meet transport failures or 429 and the last attempt
    is not reached, the loop keeps going. *)
Lemma retryLoop_advance url n : forall k a w,
  0 <= a -> a + Z.of_nat n <= maxRetries - 1 ->
  (forall j, (j < n)%nat -> retried (network w (length (sent w) + j) url) = true) ->
  retryLoop (n + k) url a w = retryLoop k url (a + Z.of_nat n) (advance n url a w).
Proof.
  induction n as [|n IH]; intros k a w Ha Hn Hretried.
  - simpl. rewrite Z.add_0_r. reflexivity.
  - change (S n + k)%nat with (S (n + k)). rewrite retryLoop_step. cbv zeta.
    pose proof (Hretried O ltac:(lia)) as H0. rewrite Nat.add_0_r in H0.
    assert (Hnext : retryLoop (n + k) url (a + 1)
                      (snd (httpGet url (Sleep (backoffDelay a) w)))
                    = retryLoop k url (a + Z.of_nat (S n)) (advance (S n) url a w)).
    { rewrite IH; [| lia | lia |].
      - replace (a + 1 + Z.of_nat n) with (a + Z.of_nat (S n)) by lia. reflexivity.
      - intros j Hj. simpl. rewrite length_app. simpl.
        replace (length (sent w) + 1 + j)%nat with (length (sent w) + S j)%nat by lia.
        apply Hretried. lia. }
    destruct (network w (length (sent w)) url) as [resp | err]; simpl in H0.
    + unfold StatusTooManyRequests, StatusOK in *.
      apply Z.eqb_eq in H0. rewrite H0.
      change (429 =? 200) with false. change (429 =? 429) with true.
      assert (Hlt : (a <? maxRetries - 1) = true) by (apply Z.ltb_lt; lia).
      rewrite Hlt. exact Hnext.
    + assert (Hne : (a =? maxRetries - 1) = false) by (apply Z.eqb_neq; lia).
      rewrite Hne. exact Hnext.
Qed.

Lemma advance_add url n : forall m a w,
  advance m url (a + Z.of_nat n) (advance n url a w) = advance (n + m) url a w.
Proof.
  induction n as [|n IH]; intros m a w.
  - simpl. rewrite Z.add_0_r. reflexivity.
  - simpl advance. rewrite <- IH.
    replace (a + 1 + Z.of_nat n) with (a + Z.of_nat (S n)) by lia. reflexivity.
Qed.

(** The loop always ends, after at most the iterations it was given, and
    the world it leaves is the one reached by that many rounds. *)
Lemma retryLoop_shape url k : forall a w,
  exists rounds,
    (rounds <= k)%nat /\ (0 < k -> 0 < rounds)%nat
    /\ snd (retryLoop k url a w) = advance rounds url a w
    /\ properResult (fst (retryLoop k url a w)).
Proof.
  induction k as [|k IH]; intros a w.
  - exists O. simpl. repeat split; lia.
  - rewrite retryLoop_step. cbv zeta.
    set (w1 := snd (httpGet url (Sleep (backoffDelay a) w))).
    destruct (IH (a + 1) w1) as (r & Hr & _ & Hw & Hp).
    assert (Hmore : exists rounds,
               (rounds <= S k)%nat /\ (0 < S k -> 0 < rounds)%nat
               /\ snd (retryLoop k url (a + 1) w1) = advance rounds url a w
               /\ properResult (fst (retryLoop k url (a + 1) w1))).
    { exists (S r). repeat split; try lia; assumption. }
    assert (Hstop : forall res : api.result LookupResponse.t,
               properResult res ->
               exists rounds,
                 (rounds <= S k)%nat /\ (0 < S k -> 0 < rounds)%nat
                 /\ snd (res, w1) = advance rounds url a w
                 /\ properResult (fst (res, w1))).
    { intros res Hres. exists 1%nat. repeat split; try lia; assumption. }
    destruct (network w (length (sent w)) url) as [resp | err].
    + destruct (StatusCode resp =? StatusOK).
      * destruct (body resp); apply Hstop; exact I.
      * destruct ((StatusCode resp =? StatusTooManyRequests) && (a <? maxRetries - 1)).
        -- exact Hmore.
        -- apply Hstop; exact I.
    + destruct (a =? maxRetries - 1).
      * apply Hstop; exact I.
      * exact Hmore.
Qed.

Lemma LookupLead_unfold (c : api.APIClient) email w :
  api.LookupLead c email w =
  let url := lookupURL c email in
  let w1 := snd (httpGet url w) in
  match network w (length (sent w)) url with
  | Failed err =>
    if isTimeoutError (Some err)
    then ((None, Some (Errorf_w "request timeout: " err)), w1)
    else ((None, Some (Errorf_w "failed to make request: " err)), w1)
  | Got resp =>
    if StatusCode resp =? StatusTooManyRequests
    then retryLoop (Z.to_nat maxRetries) url 0 w1
    else if negb (StatusCode resp =? StatusOK)
    then ((None, Some (errorString ("API returned status " ++ itoa (StatusCode resp)))), w1)
    else
      match body resp with
      | Undecodable err => ((None, Some (Errorf_w "failed to decode response: " err)), w1)
      | Json lookupResp => ((Some lookupResp, None), w1)
      end
  end.
Proof. reflexivity. Qed.

(** A lookup makes one request and then at most three rounds of
    sleep-then-request, and only after a 429. *)
Lemma LookupLead_shape (c : api.APIClient) email w :
  exists retries,
    (retries <= 3)%nat
    /\ (0 < retries -> rateLimited (network w (length (sent w)) (lookupURL c email)) = true)%nat
    /\ snd (api.LookupLead c email w)
       = advance retries (lookupURL c email) 0 (snd (httpGet (lookupURL c email) w))
    /\ properResult (fst (api.LookupLead c email w)).
Proof.
  rewrite LookupLead_unfold. cbv zeta.
  set (url := lookupURL c email). set (w1 := snd (httpGet url w)).
  destruct (network w (length (sent w)) url) as [resp | err]; simpl rateLimited.
  - destruct (StatusCode resp =? StatusTooManyRequests) eqn:E429.
    + destruct (retryLoop_shape url (Z.to_nat maxRetries) 0 w1) as (r & Hr & _ & Hw & Hp).
      exists r. repeat split; try assumption.
    + exists O. destruct (negb (StatusCode resp =? StatusOK)); [|destruct (body resp)];
        simpl; repeat split; lia.
  - exists O. destruct (isTimeoutError (Some err)); simpl; repeat split; lia.
Qed.

Lemma httpGet_sent_length url w :
  length (sent (snd (httpGet url w))) = (length (sent w) + 1)%nat.
Proof. simpl. rewrite length_app. reflexivity. Qed.

(** The lookup at its (m+1)-th retry, when the first request met a 429 and
    the [m] retries before met transport failures or 429. *)
Lemma LookupLead_retry (c : api.APIClient) email w (m : nat) :
  let url := lookupURL c email in
  let n := length (sent w) in
  (m <= 2)%nat ->
  rateLimited (network w n url) = true ->
  (forall j, (j < m)%nat -> retried (network w (n + 1 + j) url) = true) ->
  api.LookupLead c email w =
  retryLoop (3 - m) url (Z.of_nat m) (advance m url 0 (snd (httpGet url w)))
  /\ network (advance m url 0 (snd (httpGet url w)))
             (length (sent (advance m url 0 (snd (httpGet url w))))) url
     = network w (n + 1 + m) url.
Proof.
  intros url n Hm Hfirst Hprev. split.
  - rewrite LookupLead_unfold. cbv zeta. fold url. fold n.
    destruct (network w n url) as [resp | err]; simpl in Hfirst; [|discriminate].
    rewrite Hfirst. change (Z.to_nat maxRetries) with 3%nat.
    replace 3%nat with (m + (3 - m))%nat at 1 by lia.
    rewrite retryLoop_advance; [reflexivity | lia | unfold maxRetries; lia |].
    intros j Hj. rewrite httpGet_sent_length. fold n. apply Hprev. exact Hj.
  - rewrite advance_network, advance_sent, length_app, repeat_length.
    rewrite httpGet_sent_length. reflexivity.
Qed.

Lemma advance_two url w :
  advance 2 url 0 (snd (httpGet url w)) =
  mkWorld (network w) (sent w ++ [url; url; url])
          (slept w ++ [100 * Millisecond; 200 * Millisecond])
          (now w + 300 * Millisecond).
Proof.
  unfold advance, httpGet, Sleep. simpl.
  rewrite <- !app_assoc. simpl. f_equal. vm_compute backoffDelay. lia.
Qed.

Lemma advance_three url w :
  advance 3 url 0 (snd (httpGet url w)) =
  mkWorld (network w) (sent w ++ [url; url; url; url])
          (slept w ++ backoff) (now w + 700 * Millisecond).
Proof.
  unfold advance, httpGet, Sleep. simpl.
  rewrite <- !app_assoc. simpl. f_equal. vm_compute backoffDelay. lia.
Qed.

(** C2. A lookup retries on 429 only: whatever the network does, it makes
    its first request and then at most three retries, each after its
    backoff delay, these being 100 ms, 200 ms, 400 ms in this order, and
    it retries at all only if the first response was a 429.  When the
    requests meet 429, 429, 200 the decoded 200 answer is returned after
    the two delays 100 ms and 200 ms; when they meet 429 four times the
    call ends in the exhausted-retries error after three delays and four
    requests. *)
Theorem C2_rate_limit_backoff (c : api.APIClient) (email : string) (w : World) :
  let url := lookupURL c email in
  let n := length (sent w) in
  (exists retries,
      (retries <= 3)%nat
      /\ sent (snd (api.LookupLead c email w)) = (sent w ++ repeat url (1 + retries))%list
      /\ slept (snd (api.LookupLead c email w)) = (slept w ++ firstn retries backoff)%list
      /\ (0 < retries -> rateLimited (network w n url) = true)%nat)
  /\ (forall b0 b1 found,
        network w n url = Got (mkResponse 429 b0) ->
        network w (n + 1) url = Got (mkResponse 429 b1) ->
        network w (n + 2) url = Got (mkResponse 200 (Json found)) ->
        api.LookupLead c email w =
        ((Some found, None),
         mkWorld (network w) (sent w ++ [url; url; url])
                 (slept w ++ [100 * Millisecond; 200 * Millisecond])
                 (now w + 300 * Millisecond)))
  /\ (forall b0 b1 b2 b3,
        network w n url = Got (mkResponse 429 b0) ->
        network w (n + 1) url = Got (mkResponse 429 b1) ->
        network w (n + 2) url = Got (mkResponse 429 b2) ->
        network w (n + 3) url = Got (mkResponse 429 b3) ->
        api.LookupLead c email w =
        ((None, Some (errorString "API returned status 429 after 3 retries")),
         mkWorld (network w) (sent w ++ [url; url; url; url])
                 (slept w ++ backoff)
                 (now w + 700 * Millisecond))).
Proof.
  intros url n. split; [|split].
  - destruct (LookupLead_shape c email w) as (r & Hr & Hfirst & Hw & _).
    exists r. fold url in Hw, Hfirst. rewrite Hw.
    rewrite advance_sent, advance_slept, delaysFrom_backoff by assumption.
    simpl sent. simpl slept. rewrite <- app_assoc.
    repeat split; try assumption.
  - intros b0 b1 found H0 H1 H2.
    destruct (@LookupLead_retry c email w 1) as [Hrun Hnet]; fold url; fold n.
    { lia. }
    { rewrite H0. reflexivity. }
    { intros j Hj. replace j with O by lia. rewrite Nat.add_0_r, H1. reflexivity. }
    fold url in Hrun, Hnet. fold n in Hnet.
    rewrite Hrun. change (3 - 1)%nat with 2%nat.
    rewrite retryLoop_step. cbv zeta. rewrite Hnet.
    replace (n + 1 + 1)%nat with (n + 2)%nat by lia. rewrite H2.
    simpl StatusCode. simpl body. change (200 =? StatusOK) with true. cbv iota.
    rewrite <- (advance_snoc 1 url 0). rewrite advance_two. reflexivity.
  - intros b0 b1 b2 b3 H0 H1 H2 H3.
    destruct (@LookupLead_retry c email w 2) as [Hrun Hnet]; fold url; fold n.
    { lia. }
    { rewrite H0. reflexivity. }
    { intros j Hj. assert (Hcase : j = O \/ j = 1%nat) by lia.
      destruct Hcase as [-> | ->].
      - rewrite Nat.add_0_r, H1. reflexivity.
      - replace (n + 1 + 1)%nat with (n + 2)%nat by lia. rewrite H2. reflexivity. }
    fold url in Hrun, Hnet. fold n in Hnet.
    rewrite Hrun. change (3 - 2)%nat with 1%nat.
    rewrite retryLoop_step. cbv zeta. rewrite Hnet.
    replace (n + 1 + 2)%nat with (n + 3)%nat by lia. rewrite H3.
    simpl StatusCode. change (429 =? StatusOK) with false.
    change ((429 =? StatusTooManyRequests) && (Z.of_nat 2 <? maxRetries - 1)) with false.
    cbv iota.
    rewrite <- (advance_snoc 2 url 0). rewrite advance_three. reflexivity.
Qed.

Lemma C2_witness :
  api.LookupLead local "alice@example.com" (quiet [tooMany; tooMany; notFound])
  = ((Some (LookupResponse.mk false None), None),
     mkWorld (script [tooMany; tooMany; notFound])
       (repeat "http://localhost:3030/api/leads/lookup?email=alice%40example.com" 3)
       [100000000; 200000000] 300000000)
  /\ api.LookupLead local "alice@example.com" (quiet [tooMany; tooMany; tooMany; tooMany])
  = ((None, Some (errorString "API returned status 429 after 3 retries")),
     mkWorld (script [tooMany; tooMany; tooMany; tooMany])
       (repeat "http://localhost:3030/api/leads/lookup?email=alice%40example.com" 4)
       [100000000; 200000000; 400000000] 700000000).
Proof.
  split.
  - destruct (C2_rate_limit_backoff local "alice@example.com"
                (quiet [tooMany; tooMany; notFound])) as (_ & H & _).
    exact (H _ _ _ eq_refl eq_refl eq_refl).
  - destruct (C2_rate_limit_backoff local "alice@example.com"
                (quiet [tooMany; tooMany; tooMany; tooMany])) as (_ & _ & H).
    exact (H _ _ _ _ eq_refl eq_refl eq_refl eq_refl).
Defined.

(** C3, counterexample. 429, then a refused connection, then a 200: the
    refused retry is followed by another retry and the lookup succeeds. *)
Lemma C3_counterexample : ~ retry_failure_surfaces_at_once.
Proof.
  intros H.
  destruct (H local "alice@example.com" (quiet [tooMany; refused; notFound])
              (urlError "connect: connection refused" false) eq_refl eq_refl)
    as [Herr _].
  apply Herr. vm_compute. reflexivity.
Qed.

Example refused_retry_is_retried :
  let out := api.LookupLead local "alice@example.com" (quiet [tooMany; refused; notFound]) in
  fst out = (Some (LookupResponse.mk false None), None)
  /\ length (sent (snd out)) = 3%nat
  /\ slept (snd out) = [100 * Millisecond; 200 * Millisecond].
Proof. vm_compute. repeat split. Qed.

(** C3, amended. In the retry loop, after a first 429 and [m] retries that
    met transport failures or 429, the next retry ends the call at once
    when it gets a response whose status is neither 200 nor 429 or a 200
    whose body does not decode: the error is returned and no request
    follows.  A transport failure of that retry ends the call only when it
    is the third retry; before that the loop makes at least one more
    retry. *)
Theorem C3_retry_failures (c : api.APIClient) (email : string) (w : World) (m : nat) :
  let url := lookupURL c email in
  let n := length (sent w) in
  let w' := advance (S m) url 0 (snd (httpGet url w)) in
  (m <= 2)%nat ->
  rateLimited (network w n url) = true ->
  (forall j, (j < m)%nat -> retried (network w (n + 1 + j) url) = true) ->
  (sent w' = (sent w ++ repeat url (m + 2))%list
   /\ slept w' = (slept w ++ firstn (m + 1) backoff)%list)
  /\ (forall resp,
        network w (n + 1 + m) url = Got resp ->
        StatusCode resp <> 200 -> StatusCode resp <> 429 ->
        api.LookupLead c email w =
        ((None, Some (errorString ("API returned status " ++ itoa (StatusCode resp)
                                   ++ " after " ++ itoa (Z.of_nat m + 1) ++ " retries"))),
         w'))
  /\ (forall resp err,
        network w (n + 1 + m) url = Got resp ->
        StatusCode resp = 200 -> body resp = Undecodable err ->
        api.LookupLead c email w =
        ((None, Some (Errorf_w "failed to decode response: " err)), w'))
  /\ (forall err,
        network w (n + 1 + m) url = Failed err -> m = 2%nat ->
        api.LookupLead c email w =
        ((None, Some (Errorf_w "failed after 3 retries: " err)), w'))
  /\ (forall err,
        network w (n + 1 + m) url = Failed err -> (m < 2)%nat ->
        exists retries,
          (m + 2 <= retries <= 3)%nat
          /\ snd (api.LookupLead c email w)
             = advance retries url 0 (snd (httpGet url w))).
Proof.
  intros url n w' Hm Hfirst Hprev.
  destruct (@LookupLead_retry c email w m Hm Hfirst Hprev) as [Hrun Hnet].
  fold url in Hrun, Hnet. fold n in Hnet.
  assert (Hk : (3 - m = S (2 - m))%nat) by lia.
  rewrite Hk in Hrun. rewrite retryLoop_step in Hrun. cbv zeta in Hrun.
  rewrite Hnet in Hrun. rewrite <- (advance_snoc m url 0) in Hrun. fold w' in Hrun.
  split; [|split; [|split; [|split]]].
  - subst w'. rewrite advance_sent, advance_slept, delaysFrom_backoff by lia.
    simpl sent. simpl slept. rewrite <- app_assoc.
    replace (S m) with (m + 1)%nat by lia.
    replace (m + 2)%nat with (S (m + 1)) by lia. split; reflexivity.
  - intros resp Hgot H200 H429. rewrite Hrun, Hgot.
    apply Z.eqb_neq in H200, H429. unfold StatusOK, StatusTooManyRequests.
    rewrite H200, H429. reflexivity.
  - intros resp err Hgot H200 Hbody. rewrite Hrun, Hgot.
    unfold StatusOK. rewrite H200, Hbody. reflexivity.
  - intros err Hgot ->. rewrite Hrun, Hgot. reflexivity.
  - intros err Hgot Hlt. rewrite Hrun, Hgot.
    assert (Hne : (Z.of_nat m =? maxRetries - 1) = false)
      by (apply Z.eqb_neq; unfold maxRetries; lia).
    rewrite Hne.
    destruct (retryLoop_shape url (2 - m) (Z.of_nat m + 1) w')
      as (r & Hr & Hpos & Hw & _).
    exists (S m + r)%nat. split; [lia|].
    rewrite Hw. subst w'.
    replace (Z.of_nat m + 1) with (0 + Z.of_nat (S m)) by lia.
    apply advance_add.
Qed.

Lemma C3_witness :
  api.LookupLead local "alice@example.com" (quiet [tooMany; refused; serverError; notFound])
  = ((None, Some (errorString "API returned status 500 after 2 retries")),
     advance 2 (lookupURL local "alice@example.com") 0
       (snd (httpGet (lookupURL local "alice@example.com")
               (quiet [tooMany; refused; serverError; notFound])))).
Proof.
  assert (Hprev : forall j, (j < 1)%nat ->
            retried (network (quiet [tooMany; refused; serverError; notFound])
                       (0 + 1 + j) (lookupURL local "alice@example.com")) = true).
  { intros j Hj. replace j with O by lia. reflexivity. }
  destruct (@C3_retry_failures local "alice@example.com"
              (quiet [tooMany; refused; serverError; notFound]) 1
              ltac:(lia) eq_refl Hprev) as (_ & H & _).
  apply (H (mkResponse 500 (Undecodable (errorString "unexpected end of JSON input")))).
  - reflexivity.
  - simpl. discriminate.
  - simpl. discriminate.
Defined.

(* ================================================================== *)
(** * The engine on the production client *)
(* ================================================================== *)

Lemma APIClientAdapter_answers (client : api.APIClient) :
  answers (APIClientAdapter client).
Proof.
  intros email w. simpl.
  destruct (LookupLead_shape client email w) as (_ & _ & _ & _ & Hp).
  destruct (api.LookupLead client email w) as [[[resp|] [err|]] w1];
    simpl in *; try contradiction; discriminate.
Qed.

(** C10. The production client's create and update send nothing and
    cannot fail: create answers with the input's business fields under the
    constant id [generated-id], whatever id the input had, and update
    answers with the input's fields and updatedAt set, both leaving the
    world as it was.  Hence a run of the engine on this client returns,
    and its tag is neither [CREATE_ERROR] nor [UPDATE_ERROR]. *)
Theorem C10_production_create_update_cannot_fail
  (client : api.APIClient) (lead : Lead) (w : World) :
  api.CreateLead client lead w =
    ((Some (mkLead "generated-id" (Name lead) (Email lead) (Company lead)
                   (Source lead) (now w) None), None), w)
  /\ api.UpdateLead client lead w =
    ((Some (mkLead (ID lead) (Name lead) (Email lead) (Company lead)
                   (Source lead) (CreatedAt lead) (Some (now w))), None), w)
  /\ match ProcessLead (APIClientAdapter client) lead w with
     | Returns ((r, err), w') =>
       err = None
       /\ ProcessResult.Action r <> "CREATE_ERROR"
       /\ ProcessResult.Action r <> "UPDATE_ERROR"
       /\ ((ProcessResult.Action r = "CREATE" \/ ProcessResult.Action r = "UPDATE") ->
           sent w' = sent (snd (api.LookupLead client (Email lead) w)))
     | Panics => False
     end.
Proof.
  split; [reflexivity|]. split; [reflexivity|].
  pose proof (APIClientAdapter_answers client (Email lead) w) as Hans.
  unfold ProcessLead.
  destruct (Validate lead); [repeat split; try discriminate; intros [H|H]; discriminate H|].
  simpl in *.
  destruct (api.LookupLead client (Email lead) w) as [[[resp|] [err|]] w1];
    simpl in *;
    try (repeat split; try discriminate; intros [H|H]; discriminate H).
  - destruct (api.LookupResponse.Found resp); simpl.
    + destruct (IsEqual lead _); simpl; repeat split; discriminate.
    + repeat split; discriminate.
  - apply Hans; reflexivity.
Qed.

Lemma C10_witness :
  match ProcessLead (APIClientAdapter local) alice (quiet [notFound]) with
  | Returns ((r, _), w') =>
    ProcessResult.Action r = "CREATE"
    /\ sent w' = ["http://localhost:3030/api/leads/lookup?email=alice%40example.com"]
  | Panics => False
  end.
Proof.
  destruct (C10_production_create_update_cannot_fail local alice (quiet [notFound]))
    as (_ & _ & H).
  destruct (ProcessLead (APIClientAdapter local) alice (quiet [notFound]))
    as [[[r err] w']|] eqn:E; [|exact H].
  destruct H as (_ & _ & _ & H).
  assert (Hr : ProcessResult.Action r = "CREATE").
  { vm_compute in E. inversion E. reflexivity. }
  split; [exact Hr|].
  rewrite (H (or_introl Hr)). vm_compute. reflexivity.
Defined.

(* ================================================================== *)
(** * The batch loop *)
(* ================================================================== *)

Lemma count_cons p r rs : count p (r :: rs) = bump (p r) + count p rs.
Proof. unfold count, bump. simpl. destruct (p r); simpl length; lia. Qed.

Lemma count_nonneg p rs : 0 <= count p rs.
Proof. unfold count. lia. Qed.

Lemma incr_small x : 0 <= x -> x + 1 <= maxInt -> incr x = x + 1.
Proof.
  unfold incr, wrap64, maxInt. intros H0 H1.
  rewrite Z.mod_small; lia.
Qed.

(** A run against a client that keeps to the result convention returns,
    with a nil error, and the two error tags that the loop prints come with
    an error. *)
Lemma ProcessLead_returns {S : Type} (c : processor.APIClient S) lead s :
  answers c ->
  exists r s1,
    ProcessLead c lead s = Returns ((r, None), s1)
    /\ ProcessResult.Lead r = lead
    /\ In (ProcessResult.Action r) actionTags
    /\ (ProcessResult.Error r = None ->
        hasTag "VALIDATION_ERROR" r || hasTag "API_ERROR" r = false).
Proof.
  intros Hc. pose proof (Hc (Email lead) s) as Hlookup.
  unfold ProcessLead.
  destruct (Validate lead) eqn:?; simpl.
  { do 2 eexists. repeat split; [simpl; tauto | discriminate]. }
  destruct (processor.LookupLead c (Email lead) s) as [[[resp|] [err|]] s0]; simpl in *.
  1,3: do 2 eexists; repeat split; [simpl; tauto | discriminate].
  2: exfalso; apply Hlookup; reflexivity.
  destruct (processor.LookupResponse.Found resp); simpl.
  - destruct (IsEqual lead (processor.LookupResponse.Lead resp)); simpl.
    + do 2 eexists. repeat split; simpl; tauto.
    + destruct (processor.UpdateLead c lead s0) as [[updated [err|]] s1];
        do 2 eexists; repeat split; simpl; tauto.
  - destruct (processor.CreateLead c lead s0) as [[created [err|]] s1];
      do 2 eexists; repeat split; simpl; tauto.
Qed.

Lemma tally_counts (r : ProcessResult.t) (k : Counters) :
  (ProcessResult.Error r = None ->
   hasTag "VALIDATION_ERROR" r || hasTag "API_ERROR" r = false) ->
  0 <= createCount k -> 0 <= updateCount k -> 0 <= skipCount k -> 0 <= errorCount k ->
  createCount k + updateCount k + skipCount k + errorCount k + 1 <= maxInt ->
  exists k1,
    tally r None k = Returns k1
    /\ createCount k1 = createCount k + bump (hasTag "CREATE" r)
    /\ updateCount k1 = updateCount k + bump (hasTag "UPDATE" r)
    /\ skipCount k1 = skipCount k + bump (hasTag "SKIP" r)
    /\ errorCount k1 = errorCount k + bump (isErrored r).
Proof.
  intros Herr H1 H2 H3 H4 Hsum.
  unfold tally, isErrored, hasTag in *.
  destruct (String.eqb_spec (ProcessResult.Action r) "CREATE") as [E1|E1].
  { rewrite E1. simpl. eexists. split; [reflexivity|]. simpl.
    rewrite incr_small by lia. unfold bump. lia. }
  destruct (String.eqb_spec (ProcessResult.Action r) "UPDATE") as [E2|E2].
  { rewrite E2. simpl. eexists. split; [reflexivity|]. simpl.
    rewrite incr_small by lia. unfold bump. lia. }
  destruct (String.eqb_spec (ProcessResult.Action r) "SKIP") as [E3|E3].
  { simpl. eexists. split; [reflexivity|]. simpl.
    rewrite incr_small by lia. unfold bump. lia. }
  destruct ((ProcessResult.Action r =? "VALIDATION_ERROR")%string
            || (ProcessResult.Action r =? "API_ERROR")%string) eqn:E4.
  - destruct (ProcessResult.Error r) as [e|].
    + eexists. split; [reflexivity|]. simpl.
      rewrite incr_small by lia. unfold bump. lia.
    + specialize (Herr eq_refl). discriminate Herr.
  - eexists. split; [reflexivity|]. simpl.
    rewrite incr_small by lia. unfold bump. lia.
Qed.

(** The loop, from any point of the batch: it runs to the end of the list
    and each counter has grown by the number of results it stands for. *)
Lemma processLeads_counts {S : Type} (c : processor.APIClient S) :
  answers c ->
  forall leads k s,
    0 <= createCount k -> 0 <= updateCount k -> 0 <= skipCount k -> 0 <= errorCount k ->
    createCount k + updateCount k + skipCount k + errorCount k
      + Z.of_nat (length leads) <= maxInt ->
    exists rs s' k',
      Processed c s leads rs s'
      /\ processLeads c leads k s = Returns (k', s')
      /\ map ProcessResult.Lead rs = leads
      /\ createCount k' = createCount k + count (hasTag "CREATE") rs
      /\ updateCount k' = updateCount k + count (hasTag "UPDATE") rs
      /\ skipCount k' = skipCount k + count (hasTag "SKIP") rs
      /\ errorCount k' = errorCount k + count isErrored rs.
Proof.
  intros Hc. induction leads as [|lead rest IH]; intros k s H1 H2 H3 H4 Hsum.
  - exists [], s, k. simpl. unfold count. simpl.
    repeat split; try lia. constructor.
  - destruct (ProcessLead_returns lead s Hc) as (r & s1 & Hrun & Hlead & _ & Herr).
    cbn [length] in Hsum. rewrite Nat2Z.inj_succ in Hsum.
    destruct (@tally_counts r k Herr H1 H2 H3 H4 ltac:(lia))
      as (k1 & Htally & Hc1 & Hu1 & Hs1 & He1).
    assert (Hb : forall b, 0 <= bump b <= 1) by (intros []; simpl; lia).
    assert (Hone : bump (hasTag "CREATE" r) + bump (hasTag "UPDATE" r)
                   + bump (hasTag "SKIP" r) + bump (isErrored r) = 1).
    { unfold isErrored, hasTag.
      destruct (String.eqb_spec (ProcessResult.Action r) "CREATE") as [E|E];
        [rewrite E; reflexivity|].
      destruct (String.eqb_spec (ProcessResult.Action r) "UPDATE") as [E'|E'];
        [rewrite E'; reflexivity|].
      destruct (String.eqb_spec (ProcessResult.Action r) "SKIP"); reflexivity. }
    pose proof (Hb (hasTag "CREATE" r)). pose proof (Hb (hasTag "UPDATE" r)).
    pose proof (Hb (hasTag "SKIP" r)). pose proof (Hb (isErrored r)).
    destruct (IH k1 s1) as (rs & s' & k' & Hrest & Hloop & Hmap & Hc' & Hu' & Hs' & He');
      try lia.
    exists (r :: rs), s', k'.
    rewrite !count_cons. simpl processLeads. rewrite Hrun, Htally.
    repeat split; try lia.
    + econstructor; eassumption.
    + exact Hloop.
    + simpl. congruence.
Qed.

(** C8. For a batch of N leads (N fits an [int], as every slice length
    does) and a client that keeps to the result convention, the loop
    processes every lead, in input order and whatever the earlier outcomes
    were, and ends with a summary: the total is N, created, updated and
    skipped count the results tagged [CREATE], [UPDATE] and [SKIP], errors
    counts all the others, and the four add up to N.  A result whose tag is
    none of the five that the loop names is counted as an error. *)
Theorem C8_batch_counts_partition
  (S : Type) (c : processor.APIClient S) (leads : list Lead) (s : S) :
  answers c ->
  Z.of_nat (length leads) <= maxInt ->
  (exists rs s' summary,
      Processed c s leads rs s'
      /\ runBatch c leads None s = Returns ((Some summary, None), s')
      /\ map ProcessResult.Lead rs = leads
      /\ totalLeads summary = Z.of_nat (length leads)
      /\ created summary = count (hasTag "CREATE") rs
      /\ updated summary = count (hasTag "UPDATE") rs
      /\ skipped summary = count (hasTag "SKIP") rs
      /\ errors summary = count isErrored rs
      /\ created summary + updated summary + skipped summary + errors summary
         = Z.of_nat (length leads))
  /\ (forall r, In (ProcessResult.Action r)
                   ["VALIDATION_ERROR"; "API_ERROR"; "CREATE_ERROR"; "UPDATE_ERROR"] ->
                isErrored r = true)
  /\ (forall r k,
        ~ In (ProcessResult.Action r)
             ["CREATE"; "UPDATE"; "SKIP"; "VALIDATION_ERROR"; "API_ERROR"] ->
        isErrored r = true
        /\ tally r None k =
           Returns (mkCounters (createCount k) (updateCount k) (skipCount k)
                               (incr (errorCount k)))).
Proof.
  intros Hc Hlen. split; [|split].
  - destruct (@processLeads_counts S c Hc leads (mkCounters 0 0 0 0) s)
      as (rs & s' & k' & Hrun & Hloop & Hmap & Hc' & Hu' & Hs' & He');
      simpl; try lia.
    simpl in Hc', Hu', Hs', He'.
    exists rs, s'. eexists. unfold runBatch. rewrite Hloop.
    split; [exact Hrun|]. split; [reflexivity|]. simpl.
    repeat split; try assumption.
    rewrite Hc', Hu', Hs', He'.
    replace (length leads) with (length rs)
      by (rewrite <- Hmap; symmetry; apply length_map).
    clear. induction rs as [|r rs IH]; [reflexivity|].
    rewrite !count_cons. simpl length. rewrite Nat2Z.inj_succ.
    assert (Hone : bump (hasTag "CREATE" r) + bump (hasTag "UPDATE" r)
                   + bump (hasTag "SKIP" r) + bump (isErrored r) = 1).
    { unfold isErrored, hasTag.
      destruct (String.eqb_spec (ProcessResult.Action r) "CREATE") as [E|E];
        [rewrite E; reflexivity|].
      destruct (String.eqb_spec (ProcessResult.Action r) "UPDATE") as [E'|E'];
        [rewrite E'; reflexivity|].
      destruct (String.eqb_spec (ProcessResult.Action r) "SKIP"); reflexivity. }
    lia.
  - intros r Hin. unfold isErrored, hasTag. simpl in Hin.
    destruct Hin as [E | [E | [E | [E | []]]]]; rewrite <- E; reflexivity.
  - intros r k Hnot. simpl in Hnot.
    unfold isErrored, tally, hasTag.
    repeat match goal with
    | |- context [(ProcessResult.Action r =? ?tag)%string] =>
        destruct (String.eqb_spec (ProcessResult.Action r) tag) as [E | E];
        [exfalso; apply Hnot; rewrite E; tauto | clear E]
    end.
    split; reflexivity.
Qed.

Lemma C8_witness :
  exists summary,
    runBatch (mock notFoundMock) batch None tt = Returns ((Some summary, None), tt)
    /\ totalLeads summary = 3
    /\ created summary + updated summary + skipped summary + errors summary = 3.
Proof.
  assert (Hc : answers (mock notFoundMock)).
  { intros email s. simpl. discriminate. }
  assert (Hlen : Z.of_nat (length batch) <= maxInt).
  { vm_compute. discriminate. }
  destruct (@C8_batch_counts_partition unit (mock notFoundMock) batch tt Hc Hlen)
    as ((rs & s' & summary & _ & Hrun & _ & Htotal & _ & _ & _ & _ & Hsum) & _).
  exists summary. destruct s'.
  split; [exact Hrun|]. split; assumption.
Defined.

Example batch_summary :
  runBatch (mock notFoundMock) batch None tt
  = Returns ((Some (mkSummary 3 2 0 0 1), None), tt).
Proof. vm_compute. reflexivity. Qed.

(* ================================================================== *)
(** * Further properties of the HTTP client *)
(* ================================================================== *)

Lemma rateLimited_false_status resp :
  rateLimited (Got resp) = false -> (StatusCode resp =? StatusTooManyRequests) = false.
Proof. intros H. exact H. Qed.

(** X1. A first request that does not meet a 429 is never retried: the
    lookup makes that one request, sleeps not at all, and succeeds exactly
    when the response was a 200 whose body decodes; a transport failure is
    returned wrapped around its cause. *)
Theorem X1_lookup_without_rate_limit (c : api.APIClient) (email : string) (w : World) :
  let url := lookupURL c email in
  let out := api.LookupLead c email w in
  rateLimited (network w (length (sent w)) url) = false ->
  (sent (snd out) = (sent w ++ [url])%list
   /\ slept (snd out) = slept w /\ now (snd out) = now w
   /\ network (snd out) = network w)
  /\ (forall found, fst out = (Some found, None) <->
        exists resp, network w (length (sent w)) url = Got resp
                     /\ StatusCode resp = 200 /\ body resp = Json found)
  /\ (snd (fst out) = None <-> exists found, fst out = (Some found, None))
  /\ (forall err, network w (length (sent w)) url = Failed err ->
        exists msg, fst out = (None, Some (wrapError msg err))).
Proof.
  intros url out Hfirst. subst out.
  rewrite LookupLead_unfold. cbv zeta. fold url.
  destruct (network w (length (sent w)) url) as [resp | err].
  - apply rateLimited_false_status in Hfirst. rewrite Hfirst.
    destruct (Z.eqb_spec (StatusCode resp) StatusOK) as [E | E];
      [destruct (body resp) as [derr | found'] eqn:Hbody |]; cbn [negb fst snd].
    + repeat split; try discriminate.
      * intros (r & Hr & _ & Hb). inversion Hr; subst. congruence.
      * intros (f & Hf). discriminate Hf.
    + repeat split; try discriminate.
      * intros H. inversion H; subst. exists resp. auto.
      * intros (r & Hr & _ & Hb). inversion Hr; subst. congruence.
      * intros _. eexists. reflexivity.
    + repeat split; try discriminate.
      * intros (r & Hr & H200 & _). inversion Hr; subst. contradiction.
      * intros (f & Hf). discriminate Hf.
  - destruct (isTimeoutError (Some err)); cbn [fst snd];
      (repeat split; try discriminate;
       [ intros (r & Hr & _); discriminate Hr
       | intros (f & Hf); discriminate Hf
       | intros e He; inversion He; subst; eexists; reflexivity ]).
Qed.

Lemma X1_witness :
  fst (api.LookupLead local "alice@example.com" (quiet [refused; notFound]))
  = (None, Some (wrapError "failed to make request: connect: connection refused"
                   (urlError "connect: connection refused" false)))
  /\ length (sent (snd (api.LookupLead local "alice@example.com"
                          (quiet [refused; notFound])))) = 1%nat.
Proof.
  destruct (@X1_lookup_without_rate_limit local "alice@example.com"
              (quiet [refused; notFound]) eq_refl)
    as ((Hsent & _) & _ & _ & Hfail).
  split.
  - destruct (Hfail _ eq_refl) as (msg & Hmsg). rewrite Hmsg.
    vm_compute in Hmsg. inversion Hmsg. reflexivity.
  - rewrite Hsent. reflexivity.
Defined.

(** X2. In the retry loop a 200 whose body decodes ends the call at once
    with that answer, at whichever of the three retries it comes and
    whether the retries before it met a 429 or a transport failure. *)
Theorem X2_retry_success_returns_at_once
  (c : api.APIClient) (email : string) (w : World) (m : nat) (found : LookupResponse.t) :
  let url := lookupURL c email in
  let n := length (sent w) in
  (m <= 2)%nat ->
  rateLimited (network w n url) = true ->
  (forall j, (j < m)%nat -> retried (network w (n + 1 + j) url) = true) ->
  network w (n + 1 + m) url = Got (mkResponse 200 (Json found)) ->
  api.LookupLead c email w
  = ((Some found, None), advance (S m) url 0 (snd (httpGet url w)))
  /\ length (sent (advance (S m) url 0 (snd (httpGet url w)))) = (n + m + 2)%nat
  /\ slept (advance (S m) url 0 (snd (httpGet url w)))
     = (slept w ++ firstn (S m) backoff)%list.
Proof.
  intros url n Hm Hfirst Hprev Hgot.
  destruct (@LookupLead_retry c email w m Hm Hfirst Hprev) as [Hrun Hnet].
  fold url in Hrun, Hnet. fold n in Hnet.
  split; [|split].
  - rewrite Hrun.
    replace (3 - m)%nat with (Datatypes.S (2 - m)) by lia.
    rewrite retryLoop_step. cbv zeta. rewrite Hnet, Hgot.
    rewrite <- (advance_snoc m url 0). reflexivity.
  - rewrite advance_sent, length_app, repeat_length, httpGet_sent_length.
    fold n. lia.
  - rewrite advance_slept, delaysFrom_backoff by lia. reflexivity.
Qed.

Lemma X2_witness :
  api.LookupLead local "alice@example.com" (quiet [tooMany; refused; tooMany; notFound])
  = ((Some (LookupResponse.mk false None), None),
     advance 3 (lookupURL local "alice@example.com") 0
       (snd (httpGet (lookupURL local "alice@example.com")
               (quiet [tooMany; refused; tooMany; notFound])))).
Proof.
  assert (Hprev : forall j, (j < 2)%nat ->
            retried (network (quiet [tooMany; refused; tooMany; notFound])
                       (0 + 1 + j) (lookupURL local "alice@example.com")) = true).
  { intros j Hj. assert (Hcase : j = O \/ j = 1%nat) by lia.
    destruct Hcase as [-> | ->]; reflexivity. }
  destruct (@X2_retry_success_returns_at_once local "alice@example.com"
              (quiet [tooMany; refused; tooMany; notFound]) 2
              (LookupResponse.mk false None) ltac:(lia) eq_refl Hprev eq_refl)
    as (H & _).
  exact H.
Defined.

(** X3. Whatever the network does, one lookup sleeps 0, 100, 300 or 700
    milliseconds in all, so never more than 700, and it leaves the network
    itself as it found it. *)
Theorem X3_lookup_sleeps_at_most_700ms (c : api.APIClient) (email : string) (w : World) :
  let w' := snd (api.LookupLead c email w) in
  In (now w' - now w)
     [0; 100 * Millisecond; 300 * Millisecond; 700 * Millisecond]
  /\ now w' - now w <= 700 * Millisecond
  /\ (length (slept w') <= length (slept w) + 3)%nat
  /\ network w' = network w.
Proof.
  intros w'. subst w'.
  destruct (LookupLead_shape c email w) as (r & Hr & _ & Hw & _).
  rewrite Hw, advance_now, advance_slept, advance_network, length_app.
  rewrite delaysFrom_backoff by exact Hr.
  change (now (snd (httpGet (lookupURL c email) w))) with (now w).
  change (slept (snd (httpGet (lookupURL c email) w))) with (slept w).
  change (network (snd (httpGet (lookupURL c email) w))) with (network w).
  assert (Hcase : r = O \/ r = 1%nat \/ r = 2%nat \/ r = 3%nat) by lia.
  unfold backoff, Millisecond.
  destruct Hcase as [-> | [-> | [-> | ->]]];
    cbn [firstn fold_right length In];
    (split; [|split; [|split]]); first [lia | reflexivity].
Qed.

Lemma retryLoop_never_falls_through url k : forall a w,
  0 <= a -> a + Z.of_nat k = maxRetries -> (0 < k)%nat ->
  snd (fst (retryLoop k url a w))
  <> Some (errorString "max retries exceeded for rate limiting").
Proof.
  induction k as [|k IH]; intros a w Ha Hsum Hk; [lia|].
  rewrite retryLoop_step. cbv zeta.
  assert (Hnext : a < maxRetries - 1 ->
            snd (fst (retryLoop k url (a + 1)
                        (snd (httpGet url (Sleep (backoffDelay a) w)))))
            <> Some (errorString "max retries exceeded for rate limiting")).
  { intros Hlt. apply IH; unfold maxRetries in *; lia. }
  destruct (network w (length (sent w)) url) as [resp | err].
  - destruct (StatusCode resp =? StatusOK).
    + destruct (body resp); cbn [fst snd]; unfold Errorf_w; discriminate.
    + destruct (StatusCode resp =? StatusTooManyRequests); cbn [andb].
      * destruct (Z.ltb_spec a (maxRetries - 1)) as [Hlt | Hge].
        -- apply Hnext. exact Hlt.
        -- cbn [fst snd]. intros H. inversion H.
      * cbn [fst snd]. intros H. inversion H.
  - destruct (Z.eqb_spec a (maxRetries - 1)) as [E | E].
    + cbn [fst snd]. unfold Errorf_w. discriminate.
    + apply Hnext. unfold maxRetries in *. lia.
Qed.

(** X4. The error that follows the retry loop in [handleRateLimit],
    "max retries exceeded for rate limiting", is never returned: the loop
    always returns from inside its third iteration at the latest. *)
Theorem X4_fall_through_error_is_dead (c : api.APIClient) (email : string) (w : World) :
  snd (fst (api.LookupLead c email w))
  <> Some (errorString "max retries exceeded for rate limiting")
  /\ forall apiURL w1,
       snd (fst (handleRateLimit c apiURL email w1))
       <> Some (errorString "max retries exceeded for rate limiting").
Proof.
  assert (Hloop : forall apiURL w1,
            snd (fst (handleRateLimit c apiURL email w1))
            <> Some (errorString "max retries exceeded for rate limiting")).
  { intros apiURL w1. unfold handleRateLimit.
    apply retryLoop_never_falls_through; [lia | reflexivity | vm_compute; lia]. }
  split; [|exact Hloop].
  rewrite LookupLead_unfold. cbv zeta.
  destruct (network w (length (sent w)) (lookupURL c email)) as [resp | err].
  - destruct (StatusCode resp =? StatusTooManyRequests).
    + apply (Hloop (lookupURL c email)).
    + destruct (negb (StatusCode resp =? StatusOK)); [|destruct (body resp)];
        cbn [fst snd]; unfold Errorf_w; discriminate.
  - destruct (isTimeoutError (Some err)); cbn [fst snd]; unfold Errorf_w; discriminate.
Qed.

(* ================================================================== *)
(** * Further properties of the engine *)
(* ================================================================== *)

(** One run against a recording client: what it appends to the journal is
    fixed by the tag it ends in, and the tag says whether the lead was
    valid. *)
Lemma spy_run_calls {S : Type} (c : processor.APIClient S) lead s journal r err s1 journal1 :
  ProcessLead (spy c) lead (s, journal) = Returns ((r, err), (s1, journal1)) ->
  exists calls,
    journal1 = (journal ++ calls)%list
    /\ map call calls = callsOf lead (ProcessResult.Action r)
    /\ (isValid lead = false <-> ProcessResult.Action r = "VALIDATION_ERROR")
    /\ (isValid lead = false -> isErrored r = true).
Proof.
  unfold isValid. unfold ProcessLead, spy, record; simpl.
  destruct (Validate lead) eqn:Hv.
  { intros H. inversion H; subst. exists []. rewrite app_nil_r.
    repeat split; reflexivity. }
  destruct (processor.LookupLead c (Email lead) s) as [[[resp|] [e|]] s0]; simpl;
    try (intros H; inversion H; subst; eexists; split; [reflexivity|];
         split; [reflexivity|]; split; [split; discriminate | discriminate]);
    try discriminate.
  destruct (processor.LookupResponse.Found resp); simpl.
  - destruct (IsEqual lead (processor.LookupResponse.Lead resp)); simpl.
    + intros H; inversion H; subst; eexists; split; [reflexivity|];
        split; [reflexivity|]; split; [split; discriminate | discriminate].
    + destruct (processor.UpdateLead c lead s0) as [[updated [e|]] s2]; simpl;
        intros H; inversion H; subst; eexists;
        (split; [rewrite <- app_assoc; reflexivity|]);
        split; [reflexivity | split; [split; discriminate | discriminate]
               | reflexivity | split; [split; discriminate | discriminate]].
  - destruct (processor.CreateLead c lead s0) as [[created [e|]] s2]; simpl;
      intros H; inversion H; subst; eexists;
      (split; [rewrite <- app_assoc; reflexivity|]);
      split; [reflexivity | split; [split; discriminate | discriminate]
             | reflexivity | split; [split; discriminate | discriminate]].
Qed.

(** X5. Whatever the client does, a run of the engine that returns gives a
    nil error and a result that echoes the input lead under one of the seven
    tags; the result carries an error exactly under the four error tags, a
    created lead only under [CREATE], an updated lead only under [UPDATE],
    and nothing under [SKIP].  The run panics in one case only: the lead is
    valid and the lookup returned neither a response nor an error. *)
Theorem X5_outcome_shape (S : Type) (c : processor.APIClient S) (lead : Lead) (s : S) :
  match ProcessLead c lead s with
  | Returns ((r, err), _) =>
    err = None
    /\ ProcessResult.Lead r = lead
    /\ In (ProcessResult.Action r) actionTags
    /\ (ProcessResult.Error r <> None <-> isErrored r = true)
    /\ (ProcessResult.CreatedLead r <> None -> ProcessResult.Action r = "CREATE")
    /\ (ProcessResult.UpdatedLead r <> None -> ProcessResult.Action r = "UPDATE")
    /\ (ProcessResult.Action r = "SKIP" ->
        ProcessResult.CreatedLead r = None /\ ProcessResult.UpdatedLead r = None)
  | Panics =>
    Validate lead = None
    /\ fst (processor.LookupLead c (Email lead) s) = (None, None)
  end.
Proof.
  unfold ProcessLead.
  destruct (Validate lead) eqn:Hv;
    [|destruct (processor.LookupLead c (Email lead) s) as [[[resp|] [e|]] s0];
      [| destruct (processor.LookupResponse.Found resp);
         [ destruct (IsEqual lead (processor.LookupResponse.Lead resp));
           [| destruct (processor.UpdateLead c lead s0) as [[updated [e|]] s2] ]
         | destruct (processor.CreateLead c lead s0) as [[created [e|]] s2] ] | |]];
    simpl; unfold isErrored, hasTag; simpl;
    repeat split; intros;
    first [ reflexivity | assumption | tauto | congruence | discriminate ].
Qed.

Lemma X5_witness :
  ProcessLead (mock notFoundMock) john tt
  = Returns ((ProcessResult.mk "CREATE" john (Some john) None None, None), tt)
  /\ ProcessResult.Action (ProcessResult.mk "CREATE" john (Some john) None None) = "CREATE".
Proof.
  pose proof (@X5_outcome_shape unit (mock notFoundMock) john tt) as H.
  assert (E : ProcessLead (mock notFoundMock) john tt
              = Returns ((ProcessResult.mk "CREATE" john (Some john) None None, None), tt))
    by reflexivity.
  rewrite E in H. destruct H as (_ & _ & _ & _ & Hcreated & _).
  split; [exact E|]. apply Hcreated. simpl. discriminate.
Defined.

(** X6. The calls of one run, in order, are fixed by the tag it ends in:
    none under [VALIDATION_ERROR]; the lookup alone, for the lead's email,
    under [API_ERROR] and [SKIP]; the lookup and then one create of the
    input lead under [CREATE] and [CREATE_ERROR]; the lookup and then one
    update of the input lead otherwise.  So a run makes at most two calls,
    never both a create and an update, and never a second lookup. *)
Theorem X6_calls_follow_the_tag (S : Type) (c : processor.APIClient S) (lead : Lead) (s : S) :
  match ProcessLead (spy c) lead (s, []) with
  | Returns ((r, _), (_, journal)) =>
    map call journal = callsOf lead (ProcessResult.Action r)
    /\ (length journal <= 2)%nat
    /\ lookups journal = (if isValid lead then [Email lead] else [])
  | Panics => isValid lead = true
  end.
Proof.
  destruct (ProcessLead (spy c) lead (s, [])) as [[[r err] [s1 journal]]|] eqn:E.
  - destruct (spy_run_calls c lead s [] E) as (calls & -> & Hcalls & Hvalid & _).
    simpl. split; [exact Hcalls|].
    assert (Hlen : length (map call calls) = length calls) by apply length_map.
    rewrite Hcalls in Hlen.
    assert (Hl : lookups calls =
                 flat_map (fun k => match k with CallLookup e => [e] | _ => [] end)
                          (map call calls)).
    { unfold lookups. clear. induction calls as [|x xs IH]; simpl; [reflexivity|].
      rewrite IH. reflexivity. }
    rewrite Hl, Hcalls. unfold callsOf in *.
    destruct (String.eqb_spec (ProcessResult.Action r) "VALIDATION_ERROR") as [Ev | Ev].
    + apply Hvalid in Ev. rewrite Ev. simpl in *. split; [lia | reflexivity].
    + assert (Hv : isValid lead = true).
      { destruct (isValid lead); [reflexivity|]. exfalso. apply Ev, Hvalid. reflexivity. }
      rewrite Hv.
      destruct ((ProcessResult.Action r =? "API_ERROR")%string
                || (ProcessResult.Action r =? "SKIP")%string);
        [|destruct ((ProcessResult.Action r =? "CREATE")%string
                    || (ProcessResult.Action r =? "CREATE_ERROR")%string)];
        simpl in *; split; try lia; reflexivity.
  - unfold isValid. unfold ProcessLead in E.
    destruct (Validate lead); [discriminate E | reflexivity].
Qed.

(* ================================================================== *)
(** * The whole stack: engine, adapter and HTTP client *)
(* ================================================================== *)

Lemma LookupLead_ok (client : api.APIClient) email w answer :
  network w (length (sent w)) (lookupURL client email)
  = Got (mkResponse 200 (Json answer)) ->
  api.LookupLead client email w
  = ((Some answer, None), snd (httpGet (lookupURL client email) w)).
Proof.
  intros H. rewrite LookupLead_unfold. cbv zeta. rewrite H. reflexivity.
Qed.

(** The engine on the production client, once the lookup has answered. *)
Lemma production_run (client : api.APIClient) lead w found remote w1 :
  Validate lead = None ->
  api.LookupLead client (Email lead) w
  = ((Some (LookupResponse.mk found remote), None), w1) ->
  ProcessLead (APIClientAdapter client) lead w =
  Returns
    ((if negb found
      then ProcessResult.mk "CREATE" lead (Some (createdFrom lead (now w1))) None None
      else if IsEqual lead (convertAPIToProcessorLead remote)
      then ProcessResult.mk "SKIP" lead None None None
      else ProcessResult.mk "UPDATE" lead None (Some (updatedFrom lead (now w1))) None,
      None), w1).
Proof.
  intros Hv Hl. unfold ProcessLead. rewrite Hv. simpl. rewrite Hl. simpl.
  destruct found; simpl; [|reflexivity].
  destruct (IsEqual lead (convertAPIToProcessorLead remote)); reflexivity.
Qed.

(** X7. On the production client, for a valid lead whose lookup is answered
    by a 200 at the first request: "not found" gives [CREATE] with the
    input's business fields under the id [generated-id], even if the answer
    carried a lead; "found" with the same four business fields gives [SKIP],
    whatever the remote id and creation time; "found" with a difference, or
    with no lead in the answer, gives [UPDATE], and the updated lead has the
    id and createdAt of the input, not those of the remote record.  In
    each case the run made exactly one request and did not sleep. *)
Theorem X7_production_decisions
  (client : api.APIClient) (lead : Lead) (w : World) (found : bool)
  (remote : option api.Lead.t) :
  let url := lookupURL client (Email lead) in
  let w1 := mkWorld (network w) (sent w ++ [url]) (slept w) (now w) in
  Validate lead = None ->
  network w (length (sent w)) url
  = Got (mkResponse 200 (Json (LookupResponse.mk found remote))) ->
  (found = false ->
   ProcessLead (APIClientAdapter client) lead w =
   Returns ((ProcessResult.mk "CREATE" lead (Some (createdFrom lead (now w))) None None,
             None), w1))
  /\ (forall a, found = true -> remote = Some a ->
        Name lead = api.Lead.Name a -> Email lead = api.Lead.Email a ->
        Company lead = api.Lead.Company a -> Source lead = api.Lead.Source a ->
        ProcessLead (APIClientAdapter client) lead w =
        Returns ((ProcessResult.mk "SKIP" lead None None None, None), w1))
  /\ (forall a, found = true -> remote = Some a ->
        (Name lead <> api.Lead.Name a \/ Email lead <> api.Lead.Email a
         \/ Company lead <> api.Lead.Company a \/ Source lead <> api.Lead.Source a) ->
        ProcessLead (APIClientAdapter client) lead w =
        Returns ((ProcessResult.mk "UPDATE" lead None (Some (updatedFrom lead (now w))) None,
                  None), w1))
  /\ (found = true -> remote = None ->
        ProcessLead (APIClientAdapter client) lead w =
        Returns ((ProcessResult.mk "UPDATE" lead None (Some (updatedFrom lead (now w))) None,
                  None), w1)).
Proof.
  intros url w1 Hv Hnet.
  pose proof (production_run client lead w Hv (LookupLead_ok client (Email lead) w Hnet))
    as Hrun.
  fold url in Hrun. change (snd (httpGet url w)) with w1 in Hrun.
  change (now w1) with (now w) in Hrun.
  repeat split.
  - intros ->. exact Hrun.
  - intros a -> -> E1 E2 E3 E4. rewrite Hrun. simpl.
    rewrite E1, E2, E3, E4, !String.eqb_refl. reflexivity.
  - intros a -> -> Hdiff. rewrite Hrun. simpl negb. cbv iota.
    assert (Hneq : IsEqual lead (convertAPIToProcessorLead (Some a)) = false).
    { apply IsEqual_false_iff. simpl. exact Hdiff. }
    rewrite Hneq. reflexivity.
  - intros -> ->. exact Hrun.
Qed.

Lemma X7_witness :
  ProcessLead (APIClientAdapter local) (withCompany "Acme Ltd" alice) (quiet [foundAlice])
  = Returns
      ((ProcessResult.mk "UPDATE" (withCompany "Acme Ltd" alice) None
          (Some (mkLead "7c9e6679" "Alice Johnson" "alice@example.com" "Acme Ltd"
                        "LinkedIn" 1000 (Some 0))) None, None),
       mkWorld (script [foundAlice])
         ["http://localhost:3030/api/leads/lookup?email=alice%40example.com"] [] 0).
Proof.
  destruct (@X7_production_decisions local (withCompany "Acme Ltd" alice)
              (quiet [foundAlice]) true (Some aliceRemote) eq_refl eq_refl)
    as (_ & _ & H & _).
  apply (H aliceRemote eq_refl eq_refl).
  right. right. left. discriminate.
Defined.

(** X8. On the production client a lookup that ends in an error, of
    whatever kind and after however many retries, makes the run end in
    [API_ERROR] carrying that very error; nothing happens after the lookup,
    so the world is the one the lookup left. *)
Theorem X8_production_lookup_error
  (client : api.APIClient) (lead : Lead) (w : World) (e : error) :
  Validate lead = None ->
  snd (fst (api.LookupLead client (Email lead) w)) = Some e ->
  ProcessLead (APIClientAdapter client) lead w =
  Returns ((ProcessResult.mk "API_ERROR" lead None None (Some e), None),
           snd (api.LookupLead client (Email lead) w)).
Proof.
  intros Hv He. unfold ProcessLead. rewrite Hv. simpl.
  destruct (api.LookupLead client (Email lead) w) as [[resp err] w1].
  simpl in He. subst err. reflexivity.
Qed.

Lemma X8_witness :
  ProcessLead (APIClientAdapter local) alice (quiet [tooMany; tooMany; tooMany; tooMany])
  = Returns
      ((ProcessResult.mk "API_ERROR" alice None None
          (Some (errorString "API returned status 429 after 3 retries")), None),
       snd (api.LookupLead local (Email alice) (quiet [tooMany; tooMany; tooMany; tooMany]))).
Proof.
  apply (@X8_production_lookup_error local alice
           (quiet [tooMany; tooMany; tooMany; tooMany])); reflexivity.
Defined.

(* ================================================================== *)
(** * Further properties of the batch loop *)
(* ================================================================== *)

(** X9. The command returns an error exactly when the reader did, and then
    it is the reader's error, wrapped, with no lead processed.  Otherwise it
    returns a summary and a nil error whatever the network does to the
    leads: no failure of a lead reaches the caller. *)
Theorem X9_command_fails_only_on_read_error
  (apiURL : string) (leads : list Lead) (readErr : option error) (w : World) :
  Z.of_nat (length leads) <= maxInt ->
  exists out w',
    runProcessCommand apiURL leads readErr w = Returns (out, w')
    /\ (snd out = None <-> readErr = None)
    /\ (forall e, readErr = Some e ->
          out = (None, Some (Errorf_w "failed to read CSV file: " e)) /\ w' = w)
    /\ (readErr = None ->
        exists summary,
          fst out = Some summary /\ totalLeads summary = Z.of_nat (length leads)).
Proof.
  intros Hlen. unfold runProcessCommand, runBatch.
  destruct readErr as [e|].
  - do 2 eexists. split; [reflexivity|]. simpl.
    split; [split; discriminate|]. split; [|discriminate].
    intros e' He. inversion He; subst. split; reflexivity.
  - destruct (@processLeads_counts World (APIClientAdapter (NewAPIClient apiURL))
                (APIClientAdapter_answers _) leads (mkCounters 0 0 0 0) w)
      as (rs & w' & k' & _ & Hloop & _); simpl; try lia.
    rewrite Hloop. do 2 eexists. split; [reflexivity|]. simpl.
    split; [tauto|]. split; [discriminate|].
    intros _. eexists. split; reflexivity.
Qed.

Lemma X9_witness :
  exists out w',
    runProcessCommand "http://localhost:3030" batch None (quiet [tooMany; refused])
    = Returns (out, w')
    /\ snd out = None.
Proof.
  assert (Hlen : Z.of_nat (length batch) <= maxInt) by (vm_compute; discriminate).
  destruct (@X9_command_fails_only_on_read_error "http://localhost:3030" batch None
              (quiet [tooMany; refused]) Hlen) as (out & w' & Hrun & Hnil & _).
  exists out, w'. split; [exact Hrun|].
  apply Hnil. reflexivity.
Defined.

Lemma spy_answers {S : Type} (c : processor.APIClient S) :
  answers c -> answers (spy c).
Proof.
  intros Hc email [s journal]. specialize (Hc email s).
  unfold spy, record. simpl.
  destruct (processor.LookupLead c email s) as [[resp err] s1]. exact Hc.
Qed.

Lemma lookups_app a b : lookups (a ++ b) = (lookups a ++ lookups b)%list.
Proof. unfold lookups. apply flat_map_app. Qed.

Lemma lookups_of_calls lead tag calls :
  map call calls = callsOf lead tag ->
  lookups calls = (if (tag =? "VALIDATION_ERROR")%string then [] else [Email lead])
  /\ (length calls <= 2)%nat
  /\ ((tag =? "VALIDATION_ERROR")%string = true -> calls = []).
Proof.
  intros H.
  assert (Hl : lookups calls =
               flat_map (fun k => match k with CallLookup e => [e] | _ => [] end)
                        (map call calls)).
  { unfold lookups. clear. induction calls as [|x xs IH]; simpl; [reflexivity|].
    rewrite IH. reflexivity. }
  assert (Hlen : length (map call calls) = length calls) by apply length_map.
  rewrite Hl, H. rewrite H in Hlen. unfold callsOf in *.
  destruct (tag =? "VALIDATION_ERROR")%string.
  - simpl in *. repeat split; try lia.
    intros _. destruct calls; [reflexivity | discriminate Hlen].
  - destruct ((tag =? "API_ERROR")%string || (tag =? "SKIP")%string);
      [|destruct ((tag =? "CREATE")%string || (tag =? "CREATE_ERROR")%string)];
      simpl in *; repeat split; try lia; discriminate.
Qed.

Lemma filter_cons_length {A : Type} (p : A -> bool) x xs :
  length (filter p (x :: xs)) = ((if p x then 1 else 0) + length (filter p xs))%nat.
Proof. simpl. destruct (p x); reflexivity. Qed.

(** The journal of a whole batch run against a recording client. *)
Lemma Processed_spy_journal {S : Type} (c : processor.APIClient S) sj leads rs sj' :
  Processed (spy c) sj leads rs sj' ->
  exists calls,
    snd sj' = (snd sj ++ calls)%list
    /\ lookups calls = map Email (filter isValid leads)
    /\ (length calls <= 2 * length (filter isValid leads))%nat
    /\ invalidCount leads <= count isErrored rs.
Proof.
  induction 1 as [sj | sj lead r sj1 rest rs sj2 Hrun Hrest IH].
  - exists []. rewrite app_nil_r. unfold invalidCount, count. simpl.
    repeat split; lia.
  - destruct IH as (calls2 & Hj2 & Hl2 & Hn2 & He2).
    destruct sj as [s j], sj1 as [s1 j1].
    destruct (spy_run_calls c lead s j Hrun) as (calls1 & Hj1 & Hc1 & Hv1 & Hv2).
    destruct (lookups_of_calls lead _ calls1 Hc1) as (Hl1 & Hn1 & Hnil).
    simpl in Hj2. subst j1.
    exists (calls1 ++ calls2)%list.
    split; [simpl; rewrite Hj2, app_assoc; reflexivity|].
    rewrite lookups_app, Hl1, Hl2, length_app.
    unfold invalidCount in *. rewrite !filter_cons_length, count_cons.
    cbn [filter]. destruct (isValid lead) eqn:Hvalid.
    + assert (Htag : (ProcessResult.Action r =? "VALIDATION_ERROR")%string = false).
      { apply String.eqb_neq. intros E. apply Hv1 in E. discriminate E. }
      rewrite Htag. simpl negb. cbv iota.
      assert (0 <= bump (isErrored r)) by (destruct (isErrored r); simpl; lia).
      cbn [negb app length map].
      repeat split; first [lia | reflexivity].
    + assert (Htag : (ProcessResult.Action r =? "VALIDATION_ERROR")%string = true).
      { apply String.eqb_eq. apply Hv1. reflexivity. }
      rewrite Htag, (Hnil Htag), (Hv2 eq_refl).
      unfold bump. cbn [negb app length map].
      repeat split; first [lia | reflexivity | assumption].
Qed.

(** X10. In a batch run against any client that keeps to the result
    convention, the lookups made are exactly those for the valid leads, one
    each, in input order; invalid leads cause no call at all, the whole run
    makes at most two calls per valid lead, and every invalid lead is
    counted among the errors. *)
Theorem X10_batch_traffic
  (S : Type) (c : processor.APIClient S) (leads : list Lead) (s : S) :
  answers c ->
  Z.of_nat (length leads) <= maxInt ->
  exists summary s' journal,
    runBatch (spy c) leads None (s, []) = Returns ((Some summary, None), (s', journal))
    /\ lookups journal = map Email (filter isValid leads)
    /\ (length journal <= 2 * length (filter isValid leads))%nat
    /\ invalidCount leads <= errors summary.
Proof.
  intros Hc Hlen.
  destruct (@processLeads_counts _ (spy c) (spy_answers Hc) leads (mkCounters 0 0 0 0)
              (s, []))
    as (rs & [s' journal] & k' & Hrun & Hloop & _ & _ & _ & _ & He); simpl; try lia.
  destruct (Processed_spy_journal Hrun) as (calls & Hj & Hl & Hn & Hinv).
  simpl in Hj. subst journal.
  unfold runBatch. rewrite Hloop. do 3 eexists.
  split; [reflexivity|]. simpl in *. repeat split; try assumption. lia.
Qed.

Lemma X10_witness :
  exists summary journal,
    runBatch (spy (mock notFoundMock)) batch None (tt, [])
    = Returns ((Some summary, None), (tt, journal))
    /\ lookups journal = ["alice@example.com"; "john@example.com"]
    /\ 1 <= errors summary.
Proof.
  assert (Hc : answers (mock notFoundMock)).
  { intros email s. simpl. discriminate. }
  assert (Hlen : Z.of_nat (length batch) <= maxInt) by (vm_compute; discriminate).
  destruct (@X10_batch_traffic unit (mock notFoundMock) batch tt Hc Hlen)
    as (summary & s' & journal & Hrun & Hl & _ & He).
  exists summary, journal. destruct s'.
  split; [exact Hrun|]. split; [rewrite Hl; reflexivity | exact He].
Defined.

(** One run on the production client when every request is answered
    "not found". *)
Lemma production_run_all_new (client : api.APIClient) lead w r err w1 :
  alwaysNotFound w ->
  ProcessLead (APIClientAdapter client) lead w = Returns ((r, err), w1) ->
  alwaysNotFound w1
  /\ slept w1 = slept w
  /\ (if isValid lead
      then ProcessResult.Action r = "CREATE"
           /\ length (sent w1) = (length (sent w) + 1)%nat
      else ProcessResult.Action r = "VALIDATION_ERROR" /\ sent w1 = sent w).
Proof.
  intros Hnet Hrun. unfold isValid.
  destruct (Validate lead) as [e|] eqn:Hv.
  - unfold ProcessLead in Hrun. rewrite Hv in Hrun. inversion Hrun; subst.
    repeat split; try assumption; reflexivity.
  - destruct (Hnet (length (sent w)) (lookupURL client (Email lead))) as (remote & Hgot).
    rewrite (production_run client lead w Hv (LookupLead_ok client (Email lead) w Hgot))
      in Hrun.
    inversion Hrun; subst. simpl. repeat split.
    + exact Hnet.
    + rewrite length_app. reflexivity.
Qed.

Lemma Processed_all_new (client : api.APIClient) w leads rs w' :
  Processed (APIClientAdapter client) w leads rs w' ->
  alwaysNotFound w ->
  slept w' = slept w
  /\ Z.of_nat (length (sent w')) = Z.of_nat (length (sent w)) + validCount leads
  /\ count (hasTag "CREATE") rs = validCount leads
  /\ count (hasTag "UPDATE") rs = 0
  /\ count (hasTag "SKIP") rs = 0
  /\ count isErrored rs = invalidCount leads.
Proof.
  induction 1 as [w | w lead r w1 rest rs w2 Hrun Hrest IH]; intros Hnet.
  - unfold validCount, invalidCount, count. simpl. repeat split; lia.
  - destruct (@production_run_all_new client lead w r None w1 Hnet Hrun)
      as (Hnet1 & Hs1 & Hlead).
    destruct (IH Hnet1) as (Hs & Hn & Hc & Hu & Hk & He).
    unfold validCount, invalidCount in *.
    rewrite !filter_cons_length, !count_cons, Hc, Hu, Hk, He, Hs, Hs1, Hn.
    unfold isErrored, hasTag.
    destruct (isValid lead); destruct Hlead as [Htag Hsent]; rewrite Htag, Hsent;
      repeat match goal with
      | |- context [(?a =? ?b)%string] =>
          let v := eval vm_compute in (a =? b)%string in
          change (a =? b)%string with v
      end;
      unfold bump; cbn [negb andb];
      repeat split; lia.
Qed.

(** X11. Against a remote system that answers every lookup with "not
    found", the command creates every valid lead and reports every invalid
    one as an error: created is the number of valid leads, errors the number
    of invalid ones, updated and skipped are zero.  It sends one request per
    valid lead and never sleeps.  Two rows with the same email are both
    created. *)
Theorem X11_all_new_batch (apiURL : string) (leads : list Lead) (w : World) :
  alwaysNotFound w ->
  Z.of_nat (length leads) <= maxInt ->
  exists w',
    runProcessCommand apiURL leads None w =
    Returns ((Some (mkSummary (Z.of_nat (length leads)) (validCount leads) 0 0
                              (invalidCount leads)), None), w')
    /\ Z.of_nat (length (sent w')) = Z.of_nat (length (sent w)) + validCount leads
    /\ slept w' = slept w.
Proof.
  intros Hnet Hlen. unfold runProcessCommand, runBatch.
  destruct (@processLeads_counts World (APIClientAdapter (NewAPIClient apiURL))
              (APIClientAdapter_answers _) leads (mkCounters 0 0 0 0) w)
    as (rs & w' & k' & Hrun & Hloop & _ & Hc & Hu & Hk & He); simpl; try lia.
  destruct (Processed_all_new Hrun Hnet) as (Hs & Hn & Hc' & Hu' & Hk' & He').
  simpl in Hc, Hu, Hk, He.
  rewrite Hloop. exists w'. rewrite Hc, Hu, Hk, He, Hc', Hu', Hk', He'.
  repeat split; assumption.
Qed.

Lemma X11_witness :
  exists w',
    runProcessCommand "http://localhost:3030" [alice; invalidUser; alice]
      None (mkWorld everyoneIsNew [] [] 0)
    = Returns ((Some (mkSummary 3 2 0 0 1), None), w')
    /\ length (sent w') = 2%nat.
Proof.
  assert (Hnet : alwaysNotFound (mkWorld everyoneIsNew [] [] 0)).
  { intros n url. exists None. reflexivity. }
  assert (Hlen : Z.of_nat (length [alice; invalidUser; alice]) <= maxInt)
    by (vm_compute; discriminate).
  destruct (@X11_all_new_batch "http://localhost:3030" [alice; invalidUser; alice]
              (mkWorld everyoneIsNew [] [] 0) Hnet Hlen) as (w' & Hrun & Hsent & _).
  exists w'. split.
  - rewrite Hrun. reflexivity.
  - apply Nat2Z.inj. rewrite Hsent. reflexivity.
Defined.

(* ================================================================== *)
(** * Further properties of the models *)
(* ================================================================== *)

(** X12. Business equality is transitive, so with reflexivity and symmetry
    an equivalence, and validation cannot tell business-equal leads apart:
    they get the same verdict and the same message. *)
Theorem X12_IsEqual_transitive_and_Validate (a b c : Lead) :
  (IsEqual a (Some b) = true -> IsEqual b (Some c) = true -> IsEqual a (Some c) = true)
  /\ (IsEqual a (Some b) = true -> Validate a = Validate b).
Proof.
  split.
  - rewrite !IsEqual_spec. intuition congruence.
  - rewrite IsEqual_spec. intros (E1 & E2 & E3 & E4).
    unfold Validate, validationErrors. rewrite E1, E2, E3, E4. reflexivity.
Qed.

Lemma X12_witness :
  Validate (withIdentity "lead-1" 5 (Some 9) alice) = Validate alice.
Proof.
  apply (proj2 (X12_IsEqual_transitive_and_Validate
                  (withIdentity "lead-1" 5 (Some 9) alice) alice alice)).
  reflexivity.
Defined.

Lemma occurrences_append c a b :
  occurrences c (a ++ b) = (occurrences c a + occurrences c b)%nat.
Proof. induction a; simpl; [reflexivity | rewrite IHa; lia]. Qed.

Lemma allBytes_impl (p q : ascii -> bool) s :
  (forall c, p c = true -> q c = true) -> allBytes p s = true -> allBytes q s = true.
Proof.
  intros Hpq. induction s as [|c s IH]; simpl; [reflexivity|].
  rewrite !andb_true_iff. intros [Hc Hs]. auto.
Qed.

Lemma allBytes_absent p c s :
  p c = false -> allBytes p s = true -> occurrences c s = O.
Proof.
  intros Hc. induction s as [|x s IH]; simpl; [reflexivity|].
  rewrite andb_true_iff. intros [Hx Hs]. rewrite (IH Hs).
  destruct (Ascii.eqb_spec x c) as [-> | _]; [congruence | reflexivity].
Qed.

Lemma domainChar_plain c : domainChar c = true -> plainByte c = true.
Proof.
  destruct c as [b0 b1 b2 b3 b4 b5 b6 b7].
  destruct b0, b1, b2, b3, b4, b5, b6, b7; vm_compute; intros H;
    first [reflexivity | discriminate H].
Qed.

(** X13. Every email that validation accepts has at least six bytes, holds
    exactly one at sign, and consists of ASCII bytes that are not white
    space. *)
Theorem X13_accepted_email_is_plain (email : string) :
  isValidEmail email = true ->
  (6 <= String.length email)%nat
  /\ occurrences "@" email = 1%nat
  /\ allBytes plainByte email = true.
Proof.
  intros H. apply isValidEmail_spec in H.
  destruct H as (loc & dom & tld & -> & Hl1 & Hl2 & Hd1 & Hd2 & Ht1 & Ht2).
  split; [|split].
  - rewrite !length_append. simpl.
    destruct loc; [congruence|]. destruct dom; [congruence|]. simpl. lia.
  - rewrite !occurrences_append.
    rewrite (@allBytes_absent localChar "@" loc eq_refl Hl2).
    rewrite (@allBytes_absent domainChar "@" dom eq_refl Hd2).
    rewrite (@allBytes_absent isLetter "@" tld eq_refl Ht2).
    reflexivity.
  - rewrite !allBytes_append.
    rewrite (@allBytes_impl localChar plainByte loc localChar_plain Hl2).
    rewrite (@allBytes_impl domainChar plainByte dom domainChar_plain Hd2).
    rewrite (@allBytes_impl isLetter plainByte tld isLetter_plain Ht2).
    reflexivity.
Qed.

Lemma X13_witness :
  (6 <= String.length "alice@example.com")%nat
  /\ occurrences "@" "alice@example.com" = 1%nat
  /\ allBytes plainByte "alice@example.com" = true.
Proof.
  apply X13_accepted_email_is_plain. reflexivity.
Defined.

(** ** Blank names and companies *)

Lemma ascii_not_space_plain c :
  isASCII c = true -> space1 c = false -> plainByte c = true.
Proof. unfold plainByte, isASCII. intros -> ->. reflexivity. Qed.

Lemma dropSpace_space1 fwd c bs :
  space1 c = true -> dropSpace fwd (c :: bs) = dropSpace fwd bs.
Proof. intros H. simpl. rewrite H. reflexivity. Qed.

(** On ASCII bytes [dropSpace] drops the leading white space and stops. *)
Lemma dropSpace_ascii fwd bs :
  asciiList bs ->
  exists pre, bs = (pre ++ dropSpace fwd bs)%list /\ blankList pre
              /\ (dropSpace fwd bs = [] \/
                  exists c rest, dropSpace fwd bs = c :: rest /\ space1 c = false).
Proof.
  induction 1 as [|c bs Hc Hbs IH].
  - exists []. repeat split; [constructor | left; reflexivity].
  - destruct (space1 c) eqn:Hs.
    + rewrite (@dropSpace_space1 fwd c bs Hs).
      destruct IH as (pre & Hpre & Hblank & Hrest).
      exists (c :: pre). repeat split.
      * simpl. rewrite <- Hpre. reflexivity.
      * constructor; assumption.
      * exact Hrest.
    + rewrite (@dropSpace_plain fwd c bs (@ascii_not_space_plain c Hc Hs)).
      exists []. repeat split; [constructor | right; eauto].
Qed.

Lemma blankList_dropSpace fwd bs : blankList bs -> dropSpace fwd bs = [].
Proof.
  induction 1 as [|c bs Hc Hbs IH]; [reflexivity|].
  rewrite (@dropSpace_space1 fwd c bs Hc). exact IH.
Qed.

Lemma allBytes_Forall p s :
  allBytes p s = true <-> Forall (fun c => p c = true) (list_ascii_of_string s).
Proof.
  induction s as [|c s IH]; simpl.
  - split; [constructor | reflexivity].
  - rewrite andb_true_iff, IH. split.
    + intros [Hc Hs]. constructor; assumption.
    + inversion 1; subst. auto.
Qed.

Lemma string_of_list_ascii_nil bs : string_of_list_ascii bs = "" <-> bs = [].
Proof. destruct bs; simpl; split; congruence. Qed.

Lemma rev_nil_iff {A : Type} (l : list A) : rev l = [] <-> l = [].
Proof.
  split; [|intros ->; reflexivity].
  intros H. apply (f_equal (@rev A)) in H. rewrite rev_involutive in H. exact H.
Qed.

Lemma TrimSpace_ascii_blank s :
  allBytes isASCII s = true ->
  (TrimSpace s = "" <-> allBytes space1 s = true).
Proof.
  intros Hascii. apply allBytes_Forall in Hascii. rewrite allBytes_Forall.
  unfold TrimSpace. rewrite string_of_list_ascii_nil, rev_nil_iff.
  set (bs := list_ascii_of_string s) in *.
  destruct (@dropSpace_ascii true bs Hascii) as (pre & Hpre & Hblank & Hrest).
  split.
  - intros Hnil.
    destruct Hrest as [Hd | (c & rest & Hd & Hc)].
    + rewrite Hd, app_nil_r in Hpre. rewrite Hpre. exact Hblank.
    + exfalso.
      assert (Hrev : asciiList (rev (dropSpace true bs))).
      { apply Forall_rev. rewrite Hpre in Hascii.
        apply Forall_app in Hascii. tauto. }
      destruct (@dropSpace_ascii false _ Hrev) as (pre' & Hpre' & Hblank' & _).
      rewrite Hnil, app_nil_r in Hpre'.
      assert (Hall : blankList (dropSpace true bs)).
      { rewrite <- (rev_involutive (dropSpace true bs)), Hpre'.
        apply Forall_rev. exact Hblank'. }
      rewrite Hd in Hall. inversion Hall; subst. congruence.
  - intros Hall. rewrite (@blankList_dropSpace true bs Hall). reflexivity.
Qed.

Lemma In_appendIf x cond msg errs :
  In x (appendIf cond msg errs) <-> In x errs \/ (cond = true /\ x = msg).
Proof.
  unfold appendIf. destruct cond.
  - rewrite in_app_iff. simpl. intuition congruence.
  - intuition congruence.
Qed.

(** X14. For a name written in ASCII, validation reports "name is required"
    exactly when the name is empty or made of spaces, tabs, line feeds,
    vertical tabs, form feeds and carriage returns only; likewise for the
    company. *)
Theorem X14_blank_ascii_fields (l : Lead) :
  (allBytes isASCII (Name l) = true ->
   (In "name is required" (validationErrors l) <-> allBytes space1 (Name l) = true))
  /\ (allBytes isASCII (Company l) = true ->
      (In "company is required" (validationErrors l)
       <-> allBytes space1 (Company l) = true)).
Proof.
  unfold validationErrors. split; intros Hascii;
    rewrite <- (@TrimSpace_ascii_blank _ Hascii), <- String.eqb_eq;
    rewrite !In_appendIf; simpl; split; intros H.
  - destruct H as [[[[[] | [H _]] | [_ H]] | [_ H]] | [_ H]];
      [exact H | discriminate H | discriminate H | ].
    exfalso. vm_compute in H. discriminate H.
  - left. left. left. right. split; [exact H | reflexivity].
  - destruct H as [[[[[] | [_ H]] | [_ H]] | [H _]] | [_ H]];
      [discriminate H | discriminate H | exact H | ].
    exfalso. vm_compute in H. discriminate H.
  - left. right. split; [exact H | reflexivity].
Qed.

Lemma X14_witness :
  In "name is required"
     (validationErrors (withName (String " " (String "009" " ")) alice)).
Proof.
  apply (proj1 (X14_blank_ascii_fields (withName (String " " (String "009" " ")) alice)));
    reflexivity.
Defined.

(* ================================================================== *)
(** * The lookup URL *)
(* ================================================================== *)

Lemma append_inj_l (p a b : string) : p ++ a = p ++ b -> a = b.
Proof. induction p; simpl; intros H; [exact H | inversion H; auto]. Qed.

(** The escape of one byte, as [QueryEscape] writes it. *)
Lemma QueryEscape_cons c rest :
  QueryEscape (String c rest) = QueryEscape (String c "") ++ QueryEscape rest.
Proof. simpl. rewrite append_nil_r. reflexivity. Qed.

Lemma QueryEscape_byte c :
  allBytes queryByte (QueryEscape (String c "")) = true
  /\ forall tail, unescapeQuery (QueryEscape (String c "") ++ tail)
                  = String c (unescapeQuery tail).
Proof.
  destruct c as [b0 b1 b2 b3 b4 b5 b6 b7].
  destruct b0, b1, b2, b3, b4, b5, b6, b7; split; try reflexivity; intros tail;
    reflexivity.
Qed.

Lemma unescape_QueryEscape s : unescapeQuery (QueryEscape s) = s.
Proof.
  induction s as [|c s IH]; [reflexivity|].
  rewrite QueryEscape_cons, (proj2 (QueryEscape_byte c)), IH. reflexivity.
Qed.

(** X15. Whatever the email, its part of the lookup URL is written with
    letters, digits and [-_.~+%] only: no space, [&], [=], [#], [?] or [/]
    of the email reaches the URL unescaped, and neither does its at sign. *)
Theorem X15_query_is_escaped (c : api.APIClient) (email : string) :
  lookupURL c email = baseURL c ++ "/api/leads/lookup?email=" ++ QueryEscape email
  /\ allBytes queryByte (QueryEscape email) = true
  /\ occurrences "&" (QueryEscape email) = O
  /\ occurrences "=" (QueryEscape email) = O
  /\ occurrences "@" (QueryEscape email) = O
  /\ occurrences " " (QueryEscape email) = O.
Proof.
  assert (H : allBytes queryByte (QueryEscape email) = true).
  { induction email as [|x s IH]; [reflexivity|].
    rewrite QueryEscape_cons, allBytes_append, IH,
      (proj1 (QueryEscape_byte x)). reflexivity. }
  split; [reflexivity|]. split; [exact H|].
  split; [exact (@allBytes_absent queryByte "&" _ eq_refl H)|].
  split; [exact (@allBytes_absent queryByte "=" _ eq_refl H)|].
  split; [exact (@allBytes_absent queryByte "@" _ eq_refl H)|].
  exact (@allBytes_absent queryByte " " _ eq_refl H).
Qed.

(** X16. The escaped email can be read back, so different emails are never
    looked up under the same URL. *)
Theorem X16_lookupURL_injective (c : api.APIClient) (email1 email2 : string) :
  unescapeQuery (QueryEscape email1) = email1
  /\ (email1 <> email2 -> lookupURL c email1 <> lookupURL c email2).
Proof.
  split; [apply unescape_QueryEscape|].
  unfold lookupURL. intros Hne H. apply Hne.
  apply append_inj_l in H. apply append_inj_l in H.
  rewrite <- (unescape_QueryEscape email1), <- (unescape_QueryEscape email2), H.
  reflexivity.
Qed.

Lemma X16_witness :
  lookupURL local "a b@x.com" <> lookupURL local "a+b@x.com".
Proof.
  apply (proj2 (X16_lookupURL_injective local "a b@x.com" "a+b@x.com")).
  discriminate.
Defined.

(* ================================================================== *)
(** * The reader *)
(* ================================================================== *)

Lemma convert_cons i record rest leads o :
  csv.convert i (record :: rest) leads o =
  if Nat.eqb i 0 then csv.convert (Datatypes.S i) rest leads o
  else if hasFour record then
    csv.convert (Datatypes.S i) rest
      (leads ++ [mkLead (csv.uuid o (csv.made o)) (nth 0 record "") (nth 1 record "")
                        (nth 2 record "") (nth 3 record "")
                        (csv.clock o (csv.made o)) None])%list
      (csv.mkOrigin (csv.uuid o) (csv.clock o) (Datatypes.S (csv.made o)))
  else csv.convert (Datatypes.S i) rest leads o.
Proof. reflexivity. Qed.

(** The loop from any row on: it appends, in order, one lead for every
    remaining row that counts, with the next ids and times of the origin. *)
Lemma convert_spec records : forall i leads o,
  let rows := filter hasFour (if Nat.eqb i 0 then tl records else records) in
  exists fresh,
    csv.convert i records leads o
    = ((leads ++ fresh)%list,
       csv.mkOrigin (csv.uuid o) (csv.clock o) (csv.made o + length rows))
    /\ map business fresh = map firstFour rows
    /\ map ID fresh = map (csv.uuid o) (seq (csv.made o) (length rows))
    /\ map CreatedAt fresh = map (csv.clock o) (seq (csv.made o) (length rows))
    /\ Forall (fun l => UpdatedAt l = None) fresh.
Proof.
  induction records as [|record rest IH]; intros i leads o rows.
  - exists []. subst rows. destruct (Nat.eqb i 0); simpl;
      rewrite app_nil_r, Nat.add_0_r; destruct o; repeat split; constructor.
  - rewrite convert_cons. subst rows. destruct (Nat.eqb i 0) eqn:Hi.
    + cbn [tl].
      destruct (IH (Datatypes.S i) leads o) as (fresh & Hrun & Hrest).
      change (Nat.eqb (Datatypes.S i) 0) with false in Hrun, Hrest.
      cbv iota in Hrun, Hrest.
      exists fresh. split; [exact Hrun | exact Hrest].
    + cbn [filter]. destruct (hasFour record) eqn:Hlen.
      * destruct (IH (Datatypes.S i)
                    (leads ++ [mkLead (csv.uuid o (csv.made o)) (nth 0 record "")
                                  (nth 1 record "") (nth 2 record "") (nth 3 record "")
                                  (csv.clock o (csv.made o)) None])%list
                    (csv.mkOrigin (csv.uuid o) (csv.clock o) (Datatypes.S (csv.made o))))
          as (fresh & Hrun & Hb & Hid & Ht & Hu).
        change (Nat.eqb (Datatypes.S i) 0) with false in Hrun, Hb, Hid, Ht.
        cbv iota in Hrun, Hb, Hid, Ht.
        cbn [csv.uuid csv.clock csv.made] in Hrun, Hb, Hid, Ht.
        eexists (_ :: fresh). split; [|split; [|split; [|split]]].
        -- rewrite Hrun, <- app_assoc. cbn [app length].
           rewrite Nat.add_succ_r. reflexivity.
        -- cbn [map]. rewrite Hb. reflexivity.
        -- cbn [map length seq]. rewrite Hid. reflexivity.
        -- cbn [map length seq]. rewrite Ht. reflexivity.
        -- constructor; [reflexivity | exact Hu].
      * destruct (IH (Datatypes.S i) leads o) as (fresh & Hrun & Hrest).
        change (Nat.eqb (Datatypes.S i) 0) with false in Hrun, Hrest.
        cbv iota in Hrun, Hrest.
        exists fresh. split; [exact Hrun | exact Hrest].
Qed.

Lemma NoDup_map_injective {A B : Type} (f : A -> B) (l : list A) :
  (forall x y, f x = f y -> x = y) -> NoDup l -> NoDup (map f l).
Proof.
  intros Hinj. induction 1 as [|x l Hx Hl IH]; simpl; constructor; [|exact IH].
  intros Hin. apply in_map_iff in Hin. destruct Hin as (y & Hy & Hin).
  apply Hinj in Hy. subst y. contradiction.
Qed.

(** X17. From a file that parses, the reader returns no error and one lead
    for every row after the first that has at least four fields, in file
    order, built from the first four fields of the row; the first row is
    never a lead, whatever it holds, rows with fewer fields are dropped
    silently and fields beyond the fourth are ignored.  The leads have no
    updatedAt, and their ids are successive draws of the id source, so
    pairwise different when the source does not repeat itself.  When the
    file cannot be opened or parsed the reader returns that error and no
    lead. *)
Theorem X17_reader (file : csv.File) (o : csv.Origin) :
  match file with
  | csv.Records records =>
    exists leads o',
      csv.ReadLeads file o = ((leads, None), o')
      /\ map business leads = map firstFour (keptRows records)
      /\ map ID leads = map (csv.uuid o) (seq (csv.made o) (length (keptRows records)))
      /\ Forall (fun l => UpdatedAt l = None) leads
      /\ (length leads <= length records - 1)%nat
      /\ ((forall m n, csv.uuid o m = csv.uuid o n -> m = n) -> NoDup (map ID leads))
  | csv.OpenFails err | csv.ReadAllFails err =>
    csv.ReadLeads file o = (([], Some err), o)
  end.
Proof.
  destruct file as [err | err | records]; try reflexivity.
  unfold csv.ReadLeads.
  destruct (convert_spec records 0 [] o) as (fresh & Hrun & Hb & Hid & _ & Hu).
  change (Nat.eqb 0 0) with true in Hrun, Hb, Hid. cbv iota in Hrun, Hb, Hid.
  fold (keptRows records) in Hrun, Hb, Hid.
  rewrite Hrun. simpl app. do 2 eexists. split; [reflexivity|].
  split; [exact Hb|]. split; [exact Hid|]. split; [exact Hu|]. split.
  - assert (Hlen : length (map business fresh) = length (map firstFour (keptRows records)))
      by (rewrite Hb; reflexivity).
    rewrite !length_map in Hlen. rewrite Hlen. unfold keptRows.
    pose proof (filter_length_le hasFour (tl records)).
    destruct records; simpl in *; lia.
  - intros Hinj. rewrite Hid.
    apply NoDup_map_injective; [exact Hinj | apply seq_NoDup].
Qed.

Lemma strokes_injective m : forall n, strokes m = strokes n -> m = n.
Proof.
  induction m as [|m IH]; intros [|n] H; simpl in H; try discriminate; [reflexivity|].
  inversion H. f_equal. apply IH. assumption.
Qed.

Lemma X17_witness :
  NoDup (map ID (fst (fst (csv.ReadLeads sampleFile numbered)))).
Proof.
  pose proof (X17_reader sampleFile numbered) as H.
  unfold sampleFile at 1 in H. cbv iota in H.
  destruct H as (leads & o' & Hrun & _ & _ & _ & _ & Hdup).
  rewrite Hrun. cbn [fst]. apply Hdup.
  exact strokes_injective.
Defined.

Lemma counts_partition (rs : list ProcessResult.t) :
  count (hasTag "CREATE") rs + count (hasTag "UPDATE") rs + count (hasTag "SKIP") rs
  + count isErrored rs = Z.of_nat (length rs).
Proof.
  induction rs as [|r rs IH]; [reflexivity|].
  rewrite !count_cons. cbn [length]. rewrite Nat2Z.inj_succ.
  assert (Hone : bump (hasTag "CREATE" r) + bump (hasTag "UPDATE" r)
                 + bump (hasTag "SKIP" r) + bump (isErrored r) = 1).
  { unfold isErrored, hasTag.
    destruct (String.eqb_spec (ProcessResult.Action r) "CREATE") as [E|E];
      [rewrite E; reflexivity|].
    destruct (String.eqb_spec (ProcessResult.Action r) "UPDATE") as [E'|E'];
      [rewrite E'; reflexivity|].
    destruct (String.eqb_spec (ProcessResult.Action r) "SKIP"); reflexivity. }
  lia.
Qed.

(** X18. From file to summary: when the file cannot be opened or parsed the
    command returns that error, wrapped, and touches nothing.  When it
    parses, the command returns a summary whose total is the number of rows
    after the first that have at least four fields, and the four counters
    add up to that total: a row with fewer fields is neither processed nor
    counted as an error. *)
Theorem X18_file_to_summary
  (apiURL : string) (file : csv.File) (o : csv.Origin) (w : World) :
  match file with
  | csv.Records records =>
    Z.of_nat (length records) <= maxInt ->
    exists summary w',
      runProcessFile apiURL file o w = Returns ((Some summary, None), w')
      /\ totalLeads summary = Z.of_nat (length (keptRows records))
      /\ created summary + updated summary + skipped summary + errors summary
         = Z.of_nat (length (keptRows records))
  | csv.OpenFails err | csv.ReadAllFails err =>
    runProcessFile apiURL file o w
    = Returns ((None, Some (Errorf_w "failed to read CSV file: " err)), w)
  end.
Proof.
  destruct file as [err | err | records]; try reflexivity.
  intros Hmax. unfold runProcessFile, csv.ReadLeads.
  destruct (convert_spec records 0 [] o) as (leads & Hrun & Hb & _).
  change (Nat.eqb 0 0) with true in Hrun, Hb. cbv iota in Hrun, Hb.
  fold (keptRows records) in Hrun, Hb.
  rewrite Hrun. cbn [app].
  assert (Hlen : length leads = length (keptRows records)).
  { rewrite <- (length_map business leads), Hb. apply length_map. }
  assert (Hle : (length (keptRows records) <= length records)%nat).
  { unfold keptRows.
    pose proof (filter_length_le hasFour (tl records)).
    destruct records; simpl in *; lia. }
  unfold runProcessCommand, runBatch.
  destruct (@processLeads_counts World (APIClientAdapter (NewAPIClient apiURL))
              (APIClientAdapter_answers _) leads (mkCounters 0 0 0 0) w)
    as (rs & w' & k' & _ & Hloop & Hmap & Hc & Hu & Hk & He);
    cbn [createCount updateCount skipCount errorCount]; try lia.
  cbn [createCount updateCount skipCount errorCount] in Hc, Hu, Hk, He.
  rewrite Hloop. do 2 eexists. split; [reflexivity|].
  cbn [totalLeads created updated skipped errors].
  rewrite Hc, Hu, Hk, He, Hlen. split; [reflexivity|].
  replace (length (keptRows records)) with (length rs).
  - pose proof (counts_partition rs). lia.
  - rewrite <- Hlen, <- Hmap. symmetry. apply length_map.
Qed.

Lemma X18_witness :
  exists summary w',
    runProcessFile "http://localhost:3030" sampleFile numbered
      (mkWorld everyoneIsNew [] [] 0)
    = Returns ((Some summary, None), w')
    /\ totalLeads summary = 2.
Proof.
  pose proof (X18_file_to_summary "http://localhost:3030" sampleFile numbered
                (mkWorld everyoneIsNew [] [] 0)) as H.
  unfold sampleFile at 1 in H. cbv iota in H.
  destruct H as (summary & w' & Hrun & Htotal & _).
  { vm_compute. discriminate. }
  exists summary, w'. split; [exact Hrun | exact Htotal].
Defined.

(* ================================================================== *)
(** * The retry budget *)
(* ================================================================== *)

(** X19. After a first 429, three retries that each meet a 429 or a
    transport failure, in any mix, use up the budget: the lookup fails
    after exactly four requests and the three delays, 700 ms in all, with
    the status error when the third retry met a 429 and with the wrapped
    transport error otherwise. *)
Theorem X19_retry_budget (c : api.APIClient) (email : string) (w : World) :
  let url := lookupURL c email in
  let n := length (sent w) in
  rateLimited (network w n url) = true ->
  (forall j, (j < 3)%nat -> retried (network w (n + 1 + j) url) = true) ->
  snd (api.LookupLead c email w)
  = mkWorld (network w) (sent w ++ [url; url; url; url]) (slept w ++ backoff)
            (now w + 700 * Millisecond)
  /\ fst (api.LookupLead c email w)
     = (None,
        Some (match network w (n + 3) url with
              | Got _ => errorString "API returned status 429 after 3 retries"
              | Failed err => Errorf_w "failed after 3 retries: " err
              end)).
Proof.
  intros url n Hfirst Hall.
  destruct (@LookupLead_retry c email w 2) as [Hrun Hnet]; fold url; fold n.
  { lia. }
  { exact Hfirst. }
  { intros j Hj. apply Hall. lia. }
  fold url in Hrun, Hnet. fold n in Hnet.
  pose proof (Hall 2%nat ltac:(lia)) as Hlast.
  replace (n + 1 + 2)%nat with (n + 3)%nat in * by lia.
  rewrite Hrun. change (3 - 2)%nat with 1%nat.
  rewrite retryLoop_step. cbv zeta. rewrite Hnet.
  rewrite <- (advance_snoc 2 url 0), advance_three.
  destruct (network w (n + 3) url) as [resp | err]; simpl in Hlast.
  - apply Z.eqb_eq in Hlast. rewrite Hlast.
    change (StatusTooManyRequests =? StatusOK) with false.
    change ((StatusTooManyRequests =? StatusTooManyRequests)
            && (Z.of_nat 2 <? maxRetries - 1)) with false.
    cbv iota. split; reflexivity.
  - change (Z.of_nat 2 =? maxRetries - 1) with true. cbv iota.
    split; reflexivity.
Qed.

Lemma X19_witness :
  fst (api.LookupLead local "alice@example.com" (quiet [tooMany; refused; tooMany]))
  = (None,
     Some (wrapError "failed after 3 retries: connect: connection refused"
             (urlError "connect: connection refused" false))).
Proof.
  assert (Hall : forall j, (j < 3)%nat ->
            retried (network (quiet [tooMany; refused; tooMany])
                       (0 + 1 + j) (lookupURL local "alice@example.com")) = true).
  { intros j Hj. assert (Hcase : j = O \/ j = 1%nat \/ j = 2%nat) by lia.
    destruct Hcase as [-> | [-> | ->]]; reflexivity. }
  destruct (@X19_retry_budget local "alice@example.com"
              (quiet [tooMany; refused; tooMany]) eq_refl Hall) as (_ & H).
  rewrite H. reflexivity.
Defined.
